(** * The todo repository (internal/db/db.go) over a model of its store

    The repository builds SQL text and positional arguments, hands both to an
    embedded relational store through [Exec], [Query] and [QueryRow], and maps
    the rows that come back to [Todo] records.  The development has four
    layers:

    - the Go side of the data model (internal/model): requests and records;
    - the store: one table [todos], the statements the repository issues
      read back from their text (a tokenizer and a recogniser for the
      statement family), their execution on the table, and the column
      catalog that [Migrate] works on;
    - the repository operations, translated function by function with the
      connection threaded through them;
    - the properties of the operations. *)

From Stdlib Require Import ZArith List String Ascii Bool Lia.
From Stdlib Require Import Permutation Sorted.
Import ListNotations.

Open Scope string_scope.
Open Scope Z_scope.

Set Implicit Arguments.

(** ** Go values and errors *)

(** A value bound to a placeholder ([any] in [args []any]): the repository
    binds Go strings and integers only. *)
Inductive sqlval : Type :=
| VInt (z : Z)
| VText (s : string).

Definition sqlval_eqb (a b : sqlval) : bool :=
  match a, b with
  | VInt x, VInt y => Z.eqb x y
  | VText x, VText y => String.eqb x y
  | _, _ => false
  end.

(** Errors.  [ErrNotFound] is the repository's sentinel, [sql_ErrNoRows] the
    one of database/sql, [StoreError] any failure the store reports,
    [ParseError] the error of [time.Parse], and [Wrap ctx e] is
    [fmt.Errorf(ctx + ": %w", e)]. *)
Inductive error : Type :=
| ErrNotFound
| sql_ErrNoRows
| StoreError (msg : string)
| ParseError (value : string)
| Wrap (ctx : string) (e : error).

Definition error_eqb_head (e target : error) : bool :=
  match e, target with
  | ErrNotFound, ErrNotFound => true
  | sql_ErrNoRows, sql_ErrNoRows => true
  | StoreError a, StoreError b => String.eqb a b
  | ParseError a, ParseError b => String.eqb a b
  | _, _ => false
  end.

(** [errors.Is]: the target is found anywhere along the chain of wrapped
    errors. *)
Fixpoint errors_Is (e target : error) : bool :=
  error_eqb_head e target ||
  match e with
  | Wrap _ inner => errors_Is inner target
  | _ => false
  end.

(** [strings.Join]. *)
Fixpoint strings_Join (elems : list string) (sep : string) : string :=
  match elems with
  | [] => ""
  | [x] => x
  | x :: rest => x ++ sep ++ strings_Join rest sep
  end.

(** ** internal/model *)

Definition StatusPending : string := "pending".
Definition StatusInProgress : string := "in_progress".
Definition StatusDone : string := "done".

Definition ValidStatuses (s : string) : bool :=
  (s =? StatusPending)%string || (s =? StatusInProgress)%string
  || (s =? StatusDone)%string.

Definition CategoryPersonal : string := "personal".
Definition CategoryWork : string := "work".
Definition CategoryOther : string := "other".

Definition ValidCategories (s : string) : bool :=
  (s =? CategoryPersonal)%string || (s =? CategoryWork)%string
  || (s =? CategoryOther)%string.

(** [CreateTodoRequest]: status and category are plain strings (no presence
    marker), the progress is a pointer. *)
Record CreateTodoRequest : Type := mkCreate {
  cr_Title : string;
  cr_Description : string;
  cr_Status : string;
  cr_Category : string;
  cr_ProgressPercent : option Z
}.

(** [UpdateTodoRequest]: every field is a pointer, [None] is [nil]. *)
Record UpdateTodoRequest : Type := mkUpdate {
  up_Title : option string;
  up_Description : option string;
  up_Status : option string;
  up_Category : option string;
  up_ProgressPercent : option Z
}.

(** ** The store: statement text *)

Definition tab : string := String (ascii_of_nat 9) "".
Definition nl : string := String (ascii_of_nat 10) "".

Definition is_space (c : ascii) : bool :=
  let n := nat_of_ascii c in
  Nat.eqb n 32 || Nat.eqb n 9 || Nat.eqb n 10 || Nat.eqb n 13.

Definition is_quote (c : ascii) : bool := Nat.eqb (nat_of_ascii c) 39.

(** [, ( ) = ? ;] stand alone as tokens. *)
Definition is_punct (c : ascii) : bool :=
  let n := nat_of_ascii c in
  Nat.eqb n 44 || Nat.eqb n 40 || Nat.eqb n 41 || Nat.eqb n 61
  || Nat.eqb n 63 || Nat.eqb n 59.

Definition push (cur : string) (toks : list string) : list string :=
  if (cur =? "")%string then toks else cur :: toks.

(** The store's lexer: blanks separate tokens, punctuation stands alone, a
    quoted literal is one token (quotes included), so that a question mark
    inside a literal is no placeholder. *)
Fixpoint lex (inq : bool) (cur : string) (s : string) : list string :=
  match s with
  | EmptyString => push cur []
  | String c rest =>
      if inq then
        if is_quote c then (cur ++ String c "") :: lex false "" rest
        else lex true (cur ++ String c "") rest
      else if is_quote c then push cur (lex true (String c "") rest)
      else if is_space c then push cur (lex false "" rest)
      else if is_punct c then push cur (String c "" :: lex false "" rest)
      else lex false (cur ++ String c "") rest
  end.

Definition tokenize (q : string) : list string := lex false "" q.

Definition tok_eqb (a b : string) : bool := String.eqb a b.

(** Number of positional placeholders of a statement. *)
Definition placeholders (q : string) : nat :=
  List.length (filter (tok_eqb "?") (tokenize q)).

Inductive column : Type :=
| Cid | Ctitle | Cdescription | Cstatus | Ccategory | Cprogress
| Ccreated | Cupdated.

Definition column_of_name (s : string) : option column :=
  if (s =? "id")%string then Some Cid
  else if (s =? "title")%string then Some Ctitle
  else if (s =? "description")%string then Some Cdescription
  else if (s =? "status")%string then Some Cstatus
  else if (s =? "category")%string then Some Ccategory
  else if (s =? "progress_percent")%string then Some Cprogress
  else if (s =? "created_at")%string then Some Ccreated
  else if (s =? "updated_at")%string then Some Cupdated
  else None.

(** The column each placeholder compares with or assigns to, in the order
    of the placeholders: the name two tokens before a [= ?]. *)
Fixpoint placeholder_columns (toks : list string) : list (option column) :=
  match toks with
  | [] => []
  | c :: rest =>
      match rest with
      | e :: q :: _ =>
          if tok_eqb e "=" && tok_eqb q "?"
          then column_of_name c :: placeholder_columns rest
          else placeholder_columns rest
      | _ => placeholder_columns rest
      end
  end.

(** Pieces of a token list between occurrences of a separator token. *)
Fixpoint split_on (sep : string) (toks : list string) : list (list string) :=
  match toks with
  | [] => [[]]
  | t :: rest =>
      if tok_eqb t sep then [] :: split_on sep rest
      else match split_on sep rest with
           | [] => [[t]]
           | p :: ps => (t :: p) :: ps
           end
  end.

(** The tokens before the first occurrence of a keyword, and those after it
    when it occurs. *)
Fixpoint break_at (kw : string) (toks : list string)
  : list string * option (list string) :=
  match toks with
  | [] => ([], None)
  | t :: rest =>
      if tok_eqb t kw then ([], Some rest)
      else let (a, b) := break_at kw rest in (t :: a, b)
  end.

Fixpoint strip_prefix (pre toks : list string) : option (list string) :=
  match pre, toks with
  | [], _ => Some toks
  | p :: pre', t :: toks' =>
      if tok_eqb p t then strip_prefix pre' toks' else None
  | _ :: _, [] => None
  end.

Fixpoint all_some {A : Type} (l : list (option A)) : option (list A) :=
  match l with
  | [] => Some []
  | None :: _ => None
  | Some a :: rest =>
      match all_some rest with
      | Some r => Some (a :: r)
      | None => None
      end
  end.

(** An assignment of an UPDATE: [col = ?] or [col = datetime('now')]. *)
Inductive setter : Type :=
| SetParam (c : column)
| SetNow (c : column).

(** The statements of the family the repository issues. *)
Inductive stmt : Type :=
| SInsert (cols : list column)
| SUpdate (sets : list setter) (conds : list column)
| SDelete (conds : list column)
| SSelect (conds : list column) (ordered : bool).

Definition parse_cond (piece : list string) : option column :=
  match piece with
  | [c; e; q] =>
      if tok_eqb e "=" && tok_eqb q "?" then column_of_name c else None
  | _ => None
  end.

(** [c1 = ? AND c2 = ? ...] *)
Definition parse_conds (toks : list string) : option (list column) :=
  all_some (map parse_cond (split_on "AND" toks)).

Definition parse_setter (piece : list string) : option setter :=
  match piece with
  | [c; e; q] =>
      if tok_eqb e "=" && tok_eqb q "?"
      then option_map SetParam (column_of_name c) else None
  | [c; e; f; l; a; r] =>
      if tok_eqb e "=" && tok_eqb f "datetime" && tok_eqb l "("
         && tok_eqb a "'now'" && tok_eqb r ")"
      then option_map SetNow (column_of_name c) else None
  | _ => None
  end.

Definition parse_name (piece : list string) : option column :=
  match piece with
  | [c] => column_of_name c
  | _ => None
  end.

Definition is_param (piece : list string) : bool :=
  match piece with
  | [q] => tok_eqb q "?"
  | _ => false
  end.

(** The one projection the repository selects. *)
Definition select_list : list string :=
  ["SELECT"; "id"; ","; "title"; ","; "description"; ","; "status"; ",";
   "category"; ","; "progress_percent"; ",";
   "strftime"; "("; "'%Y-%m-%dT%H:%M:%SZ'"; ","; "created_at"; ")"; ",";
   "strftime"; "("; "'%Y-%m-%dT%H:%M:%SZ'"; ","; "updated_at"; ")";
   "FROM"; "todos"].

Definition parse_select (toks : list string) : option stmt :=
  match strip_prefix select_list toks with
  | None => None
  | Some rest =>
      let (body, order) := break_at "ORDER" rest in
      let ordered :=
        match order with
        | None => Some false
        | Some o =>
            match strip_prefix ["BY"; "id"; "ASC"] o with
            | Some [] => Some true
            | _ => None
            end
        end in
      let conds :=
        match body with
        | [] => Some []
        | w :: cs => if tok_eqb w "WHERE" then parse_conds cs else None
        end in
      match conds, ordered with
      | Some cs, Some o => Some (SSelect cs o)
      | _, _ => None
      end
  end.

Definition parse_update (toks : list string) : option stmt :=
  match strip_prefix ["UPDATE"; "todos"; "SET"] toks with
  | None => None
  | Some rest =>
      match break_at "WHERE" rest with
      | (sets, Some cs) =>
          match all_some (map parse_setter (split_on "," sets)),
                parse_conds cs with
          | Some ss, Some cds => Some (SUpdate ss cds)
          | _, _ => None
          end
      | (_, None) => None
      end
  end.

Definition parse_delete (toks : list string) : option stmt :=
  match strip_prefix ["DELETE"; "FROM"; "todos"; "WHERE"] toks with
  | None => None
  | Some cs => option_map SDelete (parse_conds cs)
  end.

Definition parse_insert (toks : list string) : option stmt :=
  match strip_prefix ["INSERT"; "INTO"; "todos"; "("] toks with
  | None => None
  | Some rest =>
      match break_at ")" rest with
      | (names, Some rest1) =>
          match strip_prefix ["VALUES"; "("] rest1 with
          | Some rest2 =>
              match break_at ")" rest2 with
              | (vals, Some []) =>
                  match all_some (map parse_name (split_on "," names)) with
                  | Some cols =>
                      let ps := split_on "," vals in
                      if forallb is_param ps
                         && Nat.eqb (List.length ps) (List.length cols)
                      then Some (SInsert cols) else None
                  | None => None
                  end
              | _ => None
              end
          | None => None
          end
      | (_, None) => None
      end
  end.

(** The statement a text denotes, by its first keyword. *)
Definition parse_stmt (q : string) : option stmt :=
  let toks := tokenize q in
  match toks with
  | [] => None
  | k :: _ =>
      if tok_eqb k "SELECT" then parse_select toks
      else if tok_eqb k "UPDATE" then parse_update toks
      else if tok_eqb k "DELETE" then parse_delete toks
      else if tok_eqb k "INSERT" then parse_insert toks
      else None
  end.

(** ** The store: the table and the execution of statements *)

(** A row of [todos], typed by the schema of [Migrate]: integer [id] and
    [progress_percent], text elsewhere; the two DATETIME columns hold the
    text the store wrote. *)
Record Row : Type := mkRow {
  r_id : Z;
  r_title : string;
  r_description : string;
  r_status : string;
  r_category : string;
  r_progress : Z;
  r_created_at : string;
  r_updated_at : string
}.

(** The table in storage order and the AUTOINCREMENT counter (the largest
    id ever handed out). *)
Record DB : Type := mkDB {
  tbl : list Row;
  autoinc : Z
}.

Definition col_value (c : column) (r : Row) : sqlval :=
  match c with
  | Cid => VInt (r_id r)
  | Ctitle => VText (r_title r)
  | Cdescription => VText (r_description r)
  | Cstatus => VText (r_status r)
  | Ccategory => VText (r_category r)
  | Cprogress => VInt (r_progress r)
  | Ccreated => VText (r_created_at r)
  | Cupdated => VText (r_updated_at r)
  end.

(** Writing a bound value to a column.  The repository binds text to text
    columns and integers to [progress_percent] and never writes [id]; the
    model refuses anything else. *)
Definition assign (c : column) (v : sqlval) (r : Row) : option Row :=
  match c, v with
  | Ctitle, VText s =>
      Some (mkRow (r_id r) s (r_description r) (r_status r) (r_category r)
                  (r_progress r) (r_created_at r) (r_updated_at r))
  | Cdescription, VText s =>
      Some (mkRow (r_id r) (r_title r) s (r_status r) (r_category r)
                  (r_progress r) (r_created_at r) (r_updated_at r))
  | Cstatus, VText s =>
      Some (mkRow (r_id r) (r_title r) (r_description r) s (r_category r)
                  (r_progress r) (r_created_at r) (r_updated_at r))
  | Ccategory, VText s =>
      Some (mkRow (r_id r) (r_title r) (r_description r) (r_status r) s
                  (r_progress r) (r_created_at r) (r_updated_at r))
  | Cprogress, VInt n =>
      Some (mkRow (r_id r) (r_title r) (r_description r) (r_status r)
                  (r_category r) n (r_created_at r) (r_updated_at r))
  | Ccreated, VText s =>
      Some (mkRow (r_id r) (r_title r) (r_description r) (r_status r)
                  (r_category r) (r_progress r) s (r_updated_at r))
  | Cupdated, VText s =>
      Some (mkRow (r_id r) (r_title r) (r_description r) (r_status r)
                  (r_category r) (r_progress r) (r_created_at r) s)
  | _, _ => None
  end.

(** The CHECK constraints of the schema:
    [status IN ('pending', 'in_progress', 'done')],
    [category IN ('personal', 'work', 'other')],
    [progress_percent >= 0 AND progress_percent <= 100]. *)
Definition check_row (r : Row) : bool :=
  ((r_status r =? "pending")%string || (r_status r =? "in_progress")%string
   || (r_status r =? "done")%string)
  && ((r_category r =? "personal")%string || (r_category r =? "work")%string
      || (r_category r =? "other")%string)
  && (0 <=? r_progress r) && (r_progress r <=? 100).

(** A row satisfies [c1 = ? AND c2 = ? ...] under the bound values. *)
Fixpoint matches (conds : list column) (args : list sqlval) (r : Row)
  : bool :=
  match conds, args with
  | [], _ => true
  | c :: cs, a :: rest => sqlval_eqb (col_value c r) a && matches cs rest r
  | _ :: _, [] => false
  end.

Fixpoint apply_sets (now : string) (sets : list setter)
         (args : list sqlval) (r : Row) : option Row :=
  match sets with
  | [] => Some r
  | SetParam c :: ss =>
      match args with
      | a :: rest =>
          match assign c a r with
          | Some r' => apply_sets now ss rest r'
          | None => None
          end
      | [] => None
      end
  | SetNow c :: ss =>
      match assign c (VText now) r with
      | Some r' => apply_sets now ss args r'
      | None => None
      end
  end.

Definition is_set_param (s : setter) : bool :=
  match s with SetParam _ => true | SetNow _ => false end.

Definition bind_count (st : stmt) : nat :=
  match st with
  | SInsert cols => List.length cols
  | SUpdate sets conds =>
      (List.length (filter is_set_param sets) + List.length conds)%nat
  | SDelete conds => List.length conds
  | SSelect conds _ => List.length conds
  end.

(** What [sql.Result] reports. *)
Record Result : Type := mkResult {
  res_LastInsertId : Z;
  res_RowsAffected : Z
}.

Definition err_constraint : error := StoreError "constraint failed".
Definition err_mismatch : error := StoreError "datatype mismatch".
Definition err_syntax : error := StoreError "syntax error".
Definition err_args : error := StoreError "wrong number of arguments".
Definition err_full : error := StoreError "database or disk is full".

(** UPDATE over the table: every matching row is rewritten and checked; the
    statement fails as a whole, and the count of rewritten rows comes with
    the new table. *)
Fixpoint update_rows (now : string) (sets : list setter)
         (sargs : list sqlval) (conds : list column) (wargs : list sqlval)
         (rows : list Row) : error + (list Row * Z) :=
  match rows with
  | [] => inr ([], 0)
  | r :: rest =>
      match update_rows now sets sargs conds wargs rest with
      | inl e => inl e
      | inr (rest', n) =>
          if matches conds wargs r then
            match apply_sets now sets sargs r with
            | None => inl err_mismatch
            | Some r' =>
                if check_row r' then inr (r' :: rest', n + 1)
                else inl err_constraint
            end
          else inr (r :: rest', n)
      end
  end.

Fixpoint max_id (rows : list Row) : Z :=
  match rows with
  | [] => 0
  | r :: rest => Z.max (r_id r) (max_id rest)
  end.

Definition max_int64 : Z := 9223372036854775807.

Definition column_eqb (a b : column) : bool :=
  match a, b with
  | Cid, Cid | Ctitle, Ctitle | Cdescription, Cdescription
  | Cstatus, Cstatus | Ccategory, Ccategory | Cprogress, Cprogress
  | Ccreated, Ccreated | Cupdated, Cupdated => true
  | _, _ => false
  end.

Definition has_column (c : column) (cols : list column) : bool :=
  existsb (column_eqb c) cols.

(** The row an INSERT starts from: the store's id and the column defaults
    of the schema ([title] has none and must be supplied). *)
Definition default_row (id : Z) (now : string) : Row :=
  mkRow id "" "" "pending" "personal" 0 now now.

Fixpoint assign_all (cols : list column) (args : list sqlval) (r : Row)
  : option Row :=
  match cols, args with
  | [], _ => Some r
  | c :: cs, a :: rest =>
      match assign c a r with
      | Some r' => assign_all cs rest r'
      | None => None
      end
  | _ :: _, [] => None
  end.

(** Execution of a statement at store time [now] (the text
    [datetime('now')] evaluates to, one value for the whole statement). *)
Definition exec_stmt (now : string) (st : stmt) (args : list sqlval)
           (db : DB) : error + (DB * Result) :=
  if negb (Nat.eqb (List.length args) (bind_count st)) then inl err_args
  else
    match st with
    | SInsert cols =>
        let id := Z.max (autoinc db) (max_id (tbl db)) + 1 in
        if max_int64 <? id then inl err_full
        else if negb (has_column Ctitle cols) then inl err_constraint
        else
          match assign_all cols args (default_row id now) with
          | None => inl err_mismatch
          | Some r =>
              if check_row r
              then inr (mkDB (tbl db ++ [r])%list id, mkResult id 1)
              else inl err_constraint
          end
    | SUpdate sets conds =>
        let n := List.length (filter is_set_param sets) in
        match update_rows now sets (firstn n args) conds (skipn n args)
                          (tbl db) with
        | inl e => inl e
        | inr (rows, affected) =>
            inr (mkDB rows (autoinc db), mkResult 0 affected)
        end
    | SDelete conds =>
        let gone := filter (matches conds args) (tbl db) in
        inr (mkDB (filter (fun r => negb (matches conds args r)) (tbl db))
                  (autoinc db),
             mkResult 0 (Z.of_nat (List.length gone)))
    | SSelect _ _ => inr (db, mkResult 0 0)
    end.

Fixpoint insert_by_id (r : Row) (l : list Row) : list Row :=
  match l with
  | [] => [r]
  | x :: xs =>
      if r_id r <=? r_id x then r :: l else x :: insert_by_id r xs
  end.

(** [ORDER BY id ASC]. *)
Definition sort_by_id (l : list Row) : list Row :=
  fold_right insert_by_id [] l.

(** The rows a SELECT of the family yields, before projection. *)
Definition select_rows (conds : list column) (ordered : bool)
           (args : list sqlval) (db : DB) : list Row :=
  let hits := filter (matches conds args) (tbl db) in
  if ordered then sort_by_id hits else hits.

(** ** The store: the column catalog and schema initialisation *)

Inductive check : Type :=
| NoCheck
| CheckIn (allowed : list string)
| CheckRange (lo hi : Z).

(** A column as declared: name, type, NOT NULL, the text of the default
    expression, the CHECK constraint, primary key. *)
Record ColumnDef : Type := mkCol {
  cd_name : string;
  cd_type : string;
  cd_notnull : bool;
  cd_default : option string;
  cd_check : check;
  cd_pk : bool
}.

Record Index : Type := mkIndex {
  ix_name : string;
  ix_table : string;
  ix_column : string
}.

(** The catalog of the database file: the columns of [todos] when the table
    exists, and the indexes. *)
Record Catalog : Type := mkCatalog {
  todos : option (list ColumnDef);
  indexes : list Index
}.

Inductive ddl : Type :=
| CreateTableIfNotExists (cols : list ColumnDef)
| CreateIndexIfNotExists (ix : Index)
| AlterTableAddColumn (col : ColumnDef).

Definition has_name (name : string) (cols : list ColumnDef) : bool :=
  existsb (fun c => (cd_name c =? name)%string) cols.

Definition has_index (name : string) (ixs : list Index) : bool :=
  existsb (fun i => (ix_name i =? name)%string) ixs.

(** One schema statement on the catalog.  CREATE ... IF NOT EXISTS does
    nothing when the name is taken; an index needs its table and column; an
    added column must be new, and a NOT NULL one needs a default. *)
Definition exec_ddl (d : ddl) (c : Catalog) : error + Catalog :=
  match d with
  | CreateTableIfNotExists cols =>
      match todos c with
      | Some _ => inr c
      | None => inr (mkCatalog (Some cols) (indexes c))
      end
  | CreateIndexIfNotExists ix =>
      if has_index (ix_name ix) (indexes c) then inr c
      else
        match todos c with
        | None => inl (StoreError "no such table")
        | Some cols =>
            if has_name (ix_column ix) cols
            then inr (mkCatalog (todos c) (indexes c ++ [ix])%list)
            else inl (StoreError "no such column")
        end
  | AlterTableAddColumn col =>
      match todos c with
      | None => inl (StoreError "no such table")
      | Some cols =>
          if has_name (cd_name col) cols
          then inl (StoreError "duplicate column name")
          else
            match cd_notnull col, cd_default col with
            | true, None => inl (StoreError "NOT NULL column without default")
            | _, _ => inr (mkCatalog (Some (cols ++ [col])%list) (indexes c))
            end
      end
  end.

(** [db.Exec] of a text of several statements: they run in order, and those
    before a failing one stay applied. *)
Fixpoint exec_script (ds : list ddl) (c : Catalog) : Catalog * option error :=
  match ds with
  | [] => (c, None)
  | d :: rest =>
      match exec_ddl d c with
      | inl e => (c, Some e)
      | inr c' => exec_script rest c'
      end
  end.

(** A row of [PRAGMA table_info(todos)]. *)
Record TableInfo : Type := mkInfo {
  ti_cid : Z;
  ti_name : string;
  ti_type : string;
  ti_notnull : Z;
  ti_dflt_value : option string;
  ti_pk : Z
}.

Fixpoint table_info_from (cid : Z) (cols : list ColumnDef) : list TableInfo :=
  match cols with
  | [] => []
  | col :: rest =>
      mkInfo cid (cd_name col) (cd_type col)
             (if cd_notnull col then 1 else 0) (cd_default col)
             (if cd_pk col then 1 else 0)
      :: table_info_from (cid + 1) rest
  end.

Definition table_info (c : Catalog) : list TableInfo :=
  match todos c with
  | None => []
  | Some cols => table_info_from 0 cols
  end.

(** The statements of [Migrate]:
    CREATE TABLE IF NOT EXISTS todos (...);
    CREATE INDEX IF NOT EXISTS idx_todos_status ON todos(status); *)
Definition schema : list ddl :=
  [CreateTableIfNotExists
     [mkCol "id" "INTEGER" false None NoCheck true;
      mkCol "title" "TEXT" true None NoCheck false;
      mkCol "description" "TEXT" true (Some "''") NoCheck false;
      mkCol "status" "TEXT" true (Some "'pending'")
            (CheckIn ["pending"; "in_progress"; "done"]) false;
      mkCol "progress_percent" "INTEGER" true (Some "0")
            (CheckRange 0 100) false;
      mkCol "created_at" "DATETIME" true (Some "datetime('now')")
            NoCheck false;
      mkCol "updated_at" "DATETIME" true (Some "datetime('now')")
            NoCheck false];
   CreateIndexIfNotExists (mkIndex "idx_todos_status" "todos" "status")].

(** ALTER TABLE todos ADD COLUMN category TEXT NOT NULL DEFAULT 'personal'
    CHECK(category IN ('personal', 'work', 'other')); *)
Definition category_column : ColumnDef :=
  mkCol "category" "TEXT" true (Some "'personal'")
        (CheckIn ["personal"; "work"; "other"]) false.

Definition migration : ddl := AlterTableAddColumn category_column.

(** CREATE INDEX IF NOT EXISTS idx_todos_category ON todos(category) *)
Definition category_index : Index :=
  mkIndex "idx_todos_category" "todos" "category".

(** The loop of [addCategoryColumn] over the rows of the pragma: it returns
    at the first row named [category]. *)
Fixpoint finds_category (rows : list TableInfo) : bool :=
  match rows with
  | [] => false
  | r :: rest =>
      if (ti_name r =? "category")%string then true else finds_category rest
  end.

Definition addCategoryColumn (c : Catalog) : Catalog * option error :=
  let rows := table_info c in
  if finds_category rows then (c, None)
  else
    match exec_ddl migration c with
    | inl err => (c, Some (Wrap "execute category migration" err))
    | inr c1 =>
        match exec_ddl (CreateIndexIfNotExists category_index) c1 with
        | inl err => (c1, Some (Wrap "create category index" err))
        | inr c2 => (c2, None)
        end
    end.

Definition Migrate (c : Catalog) : Catalog * option error :=
  match exec_script schema c with
  | (c1, Some err) => (c1, Some (Wrap "execute schema" err))
  | (c1, None) =>
      match addCategoryColumn c1 with
      | (c2, Some err) => (c2, Some (Wrap "add category column" err))
      | (c2, None) => (c2, None)
      end
  end.

(** The catalog [Migrate] aims at: [todos] has a [category] column and the
    index on [status] exists. *)
Definition migrated (c : Catalog) : bool :=
  match todos c with
  | Some cols => has_name "category" cols
  | None => false
  end
  && has_index "idx_todos_status" (indexes c).

(** The catalog of a new, empty database file. *)
Definition empty_catalog : Catalog := mkCatalog None [].

(** The catalog of a database created before the category column was
    introduced: the original seven columns and the index on [status]. *)
Definition legacy_catalog : Catalog := fst (exec_script schema empty_catalog).

(** ** The connection *)

(** What the repository asked of the store, in order. *)
Inductive call : Type :=
| CExec (q : string) (args : list sqlval)
| CQuery (q : string) (args : list sqlval).

(** [*sql.DB]: the store behind it and the statements sent so far. *)
Record Conn : Type := mkConn {
  store : DB;
  trace : list call
}.


(** [db.Exec(query, args...)] at store time [now]: a failed statement
    leaves the store as it was. *)
Definition db_Exec (now : string) (q : string) (args : list sqlval)
           (c : Conn) : Conn * (error + Result) :=
  let tr := (trace c ++ [CExec q args])%list in
  match parse_stmt q with
  | None => (mkConn (store c) tr, inl err_syntax)
  | Some st =>
      match exec_stmt now st args (store c) with
      | inl e => (mkConn (store c) tr, inl e)
      | inr (db', r) => (mkConn db' tr, inr r)
      end
  end.

(** [result.RowsAffected()] and [result.LastInsertId()]: the store always
    supports both. *)
Definition RowsAffected (r : Result) : error + Z := inr (res_RowsAffected r).
Definition LastInsertId (r : Result) : error + Z := inr (res_LastInsertId r).

(** A Go slice: [nil_slice] is the nil slice, [mk_slice []] the empty one. *)
Inductive slice (T : Type) : Type :=
| nil_slice
| mk_slice (elems : list T).
Arguments nil_slice {T}.
Arguments mk_slice {T} elems.

Definition append {T : Type} (s : slice T) (x : T) : slice T :=
  match s with
  | nil_slice => mk_slice [x]
  | mk_slice l => mk_slice (l ++ [x])%list
  end.


Definition is_nil {T : Type} (s : slice T) : bool :=
  match s with
  | nil_slice => true
  | mk_slice _ => false
  end.

(** ** Rows under the schema's constraints *)

(** What the schema of [Migrate] asks of the table: [id] is the primary key
    (no two rows share one), AUTOINCREMENT has handed out every id in use,
    and every row passes the CHECK constraints. *)
Definition well_formed (db : DB) : Prop :=
  NoDup (map r_id (tbl db))
  /\ Forall (fun r => r_id r <= autoinc db) (tbl db)
  /\ Forall (fun r => check_row r = true) (tbl db).

(** ** Status errors of the HTTP layer *)

From Stdlib Require Import DecimalString.

(** The error values of [huma.Error400BadRequest], [huma.Error404NotFound]
    and [huma.Error500InternalServerError]: an HTTP status and a detail. *)
Record StatusError : Type := mkStatusError {
  se_status : Z;
  se_detail : string
}.

Definition Error400BadRequest (msg : string) : StatusError :=
  mkStatusError 400 msg.
Definition Error404NotFound (msg : string) : StatusError :=
  mkStatusError 404 msg.
Definition Error500InternalServerError (msg : string) : StatusError :=
  mkStatusError 500 msg.

(** [fmt.Sprintf("%d", n)]. *)
Definition fmt_d (n : Z) : string := NilZero.string_of_int (Z.to_int n).

(** [fmt.Sprintf("todo with id %d not found", id)]. *)
Definition not_found_detail (id : Z) : string :=
  "todo with id " ++ fmt_d id ++ " not found".

(** ** Opening the repository *)

(** What [New] hands out: a repository over the catalog it has migrated. *)
Record Repository : Type := mkRepository {
  repo_catalog : Catalog
}.

(** [New].  Creating the directory, opening the file and switching the
    journal mode are the environment's: each comes with the error it meets,
    if any.  The database file is reached through its catalog. *)
Definition New (mkdir open wal : option error) (c : Catalog)
  : Catalog * (error + Repository) :=
  match mkdir with
  | Some err => (c, inl (Wrap "create db directory" err))
  | None =>
      match open with
      | Some err => (c, inl (Wrap "open database" err))
      | None =>
          match wal with
          | Some err => (c, inl (Wrap "enable WAL" err))
          | None =>
              match Migrate c with
              | (c', Some err) => (c', inl (Wrap "migrate" err))
              | (c', None) => (c', inr (mkRepository c'))
              end
          end
      end
  end.

(** A catalog keeps what another has: the columns of [todos] in place, with
    any new ones after them, and the indexes likewise. *)
Definition keeps (c c' : Catalog) : Prop :=
  (forall cols, todos c = Some cols ->
                exists more, todos c' = Some (cols ++ more)%list)
  /\ exists more, indexes c' = (indexes c ++ more)%list.

(** ** The logger's fan-out (package logger) *)

(** A log record: its level, message and attributes. *)
Record LogRecord : Type := mkLogRecord {
  rec_Level : Z;
  rec_Message : string;
  rec_Attrs : list (string * string)
}.

(** [slog.Handler], as [MultiHandler] uses it.  A handler is a value with
    its own state (the writer behind it): handling a record gives the
    handler afterwards and the error, if any. *)
Class Handler (H : Type) : Type := {
  Enabled : H -> Z -> bool;
  Handle : H -> LogRecord -> H * option error;
  WithAttrs : H -> list (string * string) -> H;
  WithGroup : H -> string -> H
}.

(** [MultiHandler.Enabled]: the first enabled handler decides. *)
Fixpoint MultiHandler_Enabled {H : Type} `{Handler H} (handlers : list H)
         (level : Z) : bool :=
  match handlers with
  | [] => false
  | h :: rest =>
      if Enabled h level then true else MultiHandler_Enabled rest level
  end.

(** [MultiHandler.Handle]: each enabled handler gets a clone of the record,
    in order; the first error ends the loop. *)
Fixpoint MultiHandler_Handle {H : Type} `{Handler H} (handlers : list H)
         (r : LogRecord) : list H * option error :=
  match handlers with
  | [] => ([], None)
  | h :: rest =>
      if Enabled h (rec_Level r) then
        let (h', err) := Handle h r in
        match err with
        | Some e => (h' :: rest, Some e)
        | None =>
            let (rest', e) := MultiHandler_Handle rest r in (h' :: rest', e)
        end
      else
        let (rest', e) := MultiHandler_Handle rest r in (h :: rest', e)
  end.

Definition MultiHandler_WithAttrs {H : Type} `{Handler H}
           (handlers : list H) (attrs : list (string * string)) : list H :=
  map (fun h => WithAttrs h attrs) handlers.

Definition MultiHandler_WithGroup {H : Type} `{Handler H}
           (handlers : list H) (name : string) : list H :=
  map (fun h => WithGroup h name) handlers.

(** A [MultiHandler] is a handler itself. *)
#[global] Instance MultiHandler_Handler {H : Type} `{Handler H}
  : Handler (list H) := {
  Enabled := MultiHandler_Enabled;
  Handle := MultiHandler_Handle;
  WithAttrs := MultiHandler_WithAttrs;
  WithGroup := MultiHandler_WithGroup
}.

(** What a handler is after a record went by: handled when the handler is
    enabled for its level, untouched otherwise. *)
Definition delivered {H : Type} `{Handler H} (r : LogRecord) (h : H) : H :=
  if Enabled h (rec_Level r) then fst (Handle h r) else h.

(** The handler takes the record without an error, or is not enabled. *)
Definition accepts {H : Type} `{Handler H} (r : LogRecord) (h : H) : Prop :=
  Enabled h (rec_Level r) = true -> snd (Handle h r) = None.

(** ** internal/middleware *)

Record Request : Type := mkRequest {
  Method : string;
  URL_Path : string
}.

(** A call on an [http.ResponseWriter]. *)
Inductive rw_call : Type :=
| CallSetHeader (key value : string)
| CallWriteHeader (code : Z)
| CallWrite (body : string).

Definition LevelInfo : Z := 0.
Definition LevelWarn : Z := 4.
Definition LevelError : Z := 8.

(** The two entries the middleware writes: [request completed], at a
    level, with method, path, status and bytes (the duration, request id,
    remote address and user agent are left out), and [panic recovered], an
    error, with the panic value, method and path. *)
Inductive LogEntry : Type :=
| RequestCompleted (level : Z) (method path : string) (status bytes : Z)
| PanicRecovered (value : string) (method path : string).

(** What serving a request comes to: the calls made on the writer, in
    order, the value the handler panicked with if it did, and what was
    logged.  A handler is taken by the calls it makes, whatever the writer
    answers. *)
Record Served : Type := mkServed {
  sv_calls : list rw_call;
  sv_panic : option string;
  sv_logs : list LogEntry
}.

Definition HttpHandler : Type := Request -> Served.

(** [responseRecorder]: the calls passed on to the writer it wraps, the
    status code and the bytes it has noted. *)
Record responseRecorder : Type := mkRecorder {
  rr_passed : list rw_call;
  statusCode : Z;
  bytesWritten : Z
}.

Definition recorder_WriteHeader (code : Z) (rr : responseRecorder)
  : responseRecorder :=
  mkRecorder (rr_passed rr ++ [CallWriteHeader code])%list code
             (bytesWritten rr).

(** [written b] is the count the wrapped writer reports for [b]. *)
Definition recorder_Write (written : string -> Z) (b : string)
           (rr : responseRecorder) : responseRecorder :=
  let n := written b in
  mkRecorder (rr_passed rr ++ [CallWrite b])%list (statusCode rr)
             (bytesWritten rr + n).

(** [Header()] is the wrapped writer's own. *)
Definition recorder_SetHeader (key value : string) (rr : responseRecorder)
  : responseRecorder :=
  mkRecorder (rr_passed rr ++ [CallSetHeader key value])%list (statusCode rr)
             (bytesWritten rr).

Definition recorder_call (written : string -> Z) (rr : responseRecorder)
           (call : rw_call) : responseRecorder :=
  match call with
  | CallSetHeader k v => recorder_SetHeader k v rr
  | CallWriteHeader code => recorder_WriteHeader code rr
  | CallWrite b => recorder_Write written b rr
  end.

(** [RequestLogger]: the handler runs on a recorder that starts at 200;
    when it returns, one entry is logged at the level the recorded status
    calls for.  A panic passes through before anything is logged. *)
Definition RequestLogger (written : string -> Z) (next : HttpHandler)
  : HttpHandler :=
  fun r =>
    let rec := mkRecorder [] 200 0 in
    let served := next r in
    let rec := fold_left (recorder_call written) (sv_calls served) rec in
    match sv_panic served with
    | Some v => mkServed (rr_passed rec) (Some v) (sv_logs served)
    | None =>
        let level := LevelInfo in
        let level :=
          if 500 <=? statusCode rec then LevelError
          else if 400 <=? statusCode rec then LevelWarn
          else level in
        mkServed (rr_passed rec) None
                 (sv_logs served
                  ++ [RequestCompleted level (Method r) (URL_Path r)
                                       (statusCode rec)
                                       (bytesWritten rec)])%list
    end.

Definition recovery_body : string :=
  "{" ++ String (ascii_of_nat 34) "error" ++ String (ascii_of_nat 34) ":"
  ++ String (ascii_of_nat 34) "internal server error"
  ++ String (ascii_of_nat 34) "," ++ String (ascii_of_nat 34) "message"
  ++ String (ascii_of_nat 34) ":" ++ String (ascii_of_nat 34)
  "an unexpected error occurred" ++ String (ascii_of_nat 34) "}".

(** [Recovery]: a panic of the handler is logged and answered with a 500
    and a JSON body, and goes no further. *)
Definition Recovery (next : HttpHandler) : HttpHandler :=
  fun r =>
    let served := next r in
    match sv_panic served with
    | Some v =>
        mkServed (sv_calls served
                  ++ [CallSetHeader "Content-Type" "application/json";
                      CallWriteHeader 500;
                      CallWrite recovery_body])%list
                 None
                 (sv_logs served
                  ++ [PanicRecovered v (Method r) (URL_Path r)])%list
    | None => served
    end.

Definition cors_headers : list rw_call :=
  [CallSetHeader "Access-Control-Allow-Origin" "*";
   CallSetHeader "Access-Control-Allow-Methods"
                 "GET, POST, PUT, DELETE, OPTIONS";
   CallSetHeader "Access-Control-Allow-Headers" "Content-Type, X-Request-ID"].

(** [CORS]: the three headers, then a 204 for OPTIONS and the handler for
    any other method. *)
Definition CORS (next : HttpHandler) : HttpHandler :=
  fun r =>
    if (Method r =? "OPTIONS")%string
    then mkServed (cors_headers ++ [CallWriteHeader 204])%list None []
    else
      let served := next r in
      mkServed (cors_headers ++ sv_calls served)%list (sv_panic served)
               (sv_logs served).

Definition is_write_header (k : rw_call) : bool :=
  match k with CallWriteHeader _ => true | _ => false end.

(** The code of the last [WriteHeader] among the calls, 200 when there is
    none. *)
Fixpoint last_status (calls : list rw_call) : Z :=
  match calls with
  | [] => 200
  | call :: rest =>
      match call, existsb is_write_header rest with
      | CallWriteHeader code, false => code
      | _, _ => last_status rest
      end
  end.

(** The counts the writer reported for the bodies written, added up. *)
Fixpoint bytes_reported (written : string -> Z) (calls : list rw_call) : Z :=
  match calls with
  | [] => 0
  | CallWrite b :: rest => written b + bytes_reported written rest
  | _ :: rest => bytes_reported written rest
  end.

(** The level for a status: 500 and above is an error, 400 to 499 a
    warning. *)
Definition level_for (status : Z) : Z :=
  if 500 <=? status then LevelError
  else if 400 <=? status then LevelWarn
  else LevelInfo.

(** ** A concrete clock for examples *)

(** [strftime('%Y-%m-%dT%H:%M:%SZ', v)] on a stored [YYYY-MM-DD HH:MM:SS]:
    the date, a [T], the time of day, a [Z]; and on the Julian day 0, whose
    year has a sign. *)
Definition demo_strftime (v : string) : string :=
  if (v =? "0")%string then "-4713-11-24T12:00:00Z"
  else substring 0 10 v ++ "T" ++ substring 11 8 v ++ "Z".

(** Times as their RFC 3339 text; a text of another length than
    [YYYY-MM-DDTHH:MM:SSZ] is not read. *)
Definition demo_parse (v : string) : option string :=
  if Nat.eqb (String.length v) 20 then Some v else None.

Definition demo_zero : string := "0001-01-01T00:00:00Z".

(** The store's time at the calls of the examples. *)
Definition demo_now : string := "2026-02-13 09:00:00".

Definition demo_row : Row :=
  mkRow 1 "Buy milk" "" "pending" "personal" 0
        "2026-02-12 15:04:05" "2026-02-12 15:04:05".

(** A row whose creation time formats to a text RFC 3339 does not admit. *)
Definition odd_row : Row :=
  mkRow 2 "Call home" "" "done" "work" 100 "0" "2026-02-12 15:04:05".

Definition demo_conn : Conn := mkConn (mkDB [demo_row; odd_row] 2) [].

Section Repository.

(** The time library and the store's formatter are taken as given:
    [Time] with its zero value, the RFC 3339 reading of a text, and the text
    [strftime('%Y-%m-%dT%H:%M:%SZ', col)] yields for a stored value (text,
    as the result is scanned into a Go string). *)
Variable Time : Type.
Variable zeroTime : Time.
Variable parseRFC3339 : string -> option Time.
Variable strftime_iso : string -> string.

(** [time.Parse(time.RFC3339, value)]: the zero [Time] comes with the
    error. *)
Definition time_Parse (value : string) : Time * option error :=
  match parseRFC3339 value with
  | Some t => (t, None)
  | None => (zeroTime, Some (ParseError value))
  end.

Record Todo : Type := mkTodo {
  ID : Z;
  Title : string;
  Description : string;
  Status : string;
  Category : string;
  ProgressPercent : Z;
  CreatedAt : Time;
  UpdatedAt : Time
}.

(** A row of the projection: id, title, description, status, category,
    progress_percent, and the two timestamps as formatted by the store. *)
Record QRow : Type := mkQRow {
  q_id : Z;
  q_title : string;
  q_description : string;
  q_status : string;
  q_category : string;
  q_progress : Z;
  q_created : string;
  q_updated : string
}.

Definition project (r : Row) : QRow :=
  mkQRow (r_id r) (r_title r) (r_description r) (r_status r) (r_category r)
         (r_progress r) (strftime_iso (r_created_at r))
         (strftime_iso (r_updated_at r)).

(** [db.Query(query, args...)]. *)
Definition db_Query (q : string) (args : list sqlval) (c : Conn)
  : Conn * (error + list QRow) :=
  let c' := mkConn (store c) (trace c ++ [CQuery q args])%list in
  match parse_stmt q with
  | Some (SSelect conds ordered) =>
      if Nat.eqb (List.length args) (List.length conds)
      then (c', inr (map project (select_rows conds ordered args (store c))))
      else (c', inl err_args)
  | _ => (c', inl err_syntax)
  end.

(** [*sql.Row]: the outcome of [db.QueryRow], its error kept for [Scan]. *)
Definition SqlRow : Type := (error + list QRow)%type.

Definition db_QueryRow (q : string) (args : list sqlval) (c : Conn)
  : Conn * SqlRow := db_Query q args c.

(** [row.Scan]: the deferred error, [sql.ErrNoRows] without a row, the first
    row otherwise. *)
Definition row_Scan (row : SqlRow) : error + QRow :=
  match row with
  | inl e => inl e
  | inr [] => inl sql_ErrNoRows
  | inr (q :: _) => inr q
  end.

(** ** internal/db: the repository *)

(** The columns a scanned row fills, with both timestamps read by
    [time.Parse] and the parse errors dropped. *)
Definition todo_of (q : QRow) : Todo :=
  mkTodo (q_id q) (q_title q) (q_description q) (q_status q) (q_category q)
         (q_progress q)
         (fst (time_Parse (q_created q)))
         (fst (time_Parse (q_updated q))).

Definition scanTodo (row : SqlRow) : error + Todo :=
  match row_Scan row with
  | inl err =>
      if errors_Is err sql_ErrNoRows then inl ErrNotFound
      else inl (Wrap "scan todo" err)
  | inr q => inr (todo_of q)
  end.

Definition select_columns : string :=
  "SELECT id, title, description, status, category, progress_percent,".

Definition get_query : string :=
  select_columns ++ nl ++ tab ++ tab ++ tab
  ++ "strftime('%Y-%m-%dT%H:%M:%SZ', created_at)," ++ nl ++ tab ++ tab ++ tab
  ++ "strftime('%Y-%m-%dT%H:%M:%SZ', updated_at)" ++ nl ++ tab ++ tab
  ++ "FROM todos WHERE id = ?".

Definition GetTodo (id : Z) (c : Conn) : Conn * (error + Todo) :=
  let (c', row) := db_QueryRow get_query [VInt id] c in
  (c', scanTodo row).

Definition list_query : string :=
  select_columns ++ nl ++ tab ++ tab
  ++ "strftime('%Y-%m-%dT%H:%M:%SZ', created_at)," ++ nl ++ tab ++ tab
  ++ "strftime('%Y-%m-%dT%H:%M:%SZ', updated_at)" ++ nl ++ tab
  ++ "FROM todos".

(** The statement and arguments [ListTodos] builds (lines 169-189). *)
Definition ListTodos_query (status category : option string)
  : string * list sqlval :=
  let query := list_query in
  let conditions : list string := [] in
  let args : list sqlval := [] in
  let '(conditions, args) :=
    match status with
    | Some s =>
        ((conditions ++ ["status = ?"])%list, (args ++ [VText s])%list)
    | None => (conditions, args)
    end in
  let '(conditions, args) :=
    match category with
    | Some k =>
        ((conditions ++ ["category = ?"])%list, (args ++ [VText k])%list)
    | None => (conditions, args)
    end in
  let query :=
    if Nat.ltb 0 (List.length conditions)
    then query ++ " WHERE " ++ strings_Join conditions " AND "
    else query in
  let query := query ++ " ORDER BY id ASC" in
  (query, args).

(** The rows of the projection are typed, so the scan in the loop and
    [rows.Err()] report nothing; the loop appends one record per row. *)
Definition ListTodos (status category : option string) (c : Conn)
  : Conn * (error + slice Todo) :=
  let '(query, args) := ListTodos_query status category in
  let (c', res) := db_Query query args c in
  match res with
  | inl err => (c', inl (Wrap "query todos" err))
  | inr rows =>
      let todos := fold_left (fun ts q => append ts (todo_of q)) rows
                             nil_slice in
      let todos := if is_nil todos then mk_slice [] else todos in
      (c', inr todos)
  end.

(** The assignments and arguments [UpdateTodo] collects from the fields
    that are present (lines 221-243). *)
Definition UpdateTodo_clauses (req : UpdateTodoRequest)
  : list string * list sqlval :=
  let setClauses : list string := [] in
  let args : list sqlval := [] in
  let '(setClauses, args) :=
    match up_Title req with
    | Some v =>
        ((setClauses ++ ["title = ?"])%list, (args ++ [VText v])%list)
    | None => (setClauses, args)
    end in
  let '(setClauses, args) :=
    match up_Description req with
    | Some v =>
        ((setClauses ++ ["description = ?"])%list, (args ++ [VText v])%list)
    | None => (setClauses, args)
    end in
  let '(setClauses, args) :=
    match up_Status req with
    | Some v =>
        ((setClauses ++ ["status = ?"])%list, (args ++ [VText v])%list)
    | None => (setClauses, args)
    end in
  let '(setClauses, args) :=
    match up_Category req with
    | Some v =>
        ((setClauses ++ ["category = ?"])%list, (args ++ [VText v])%list)
    | None => (setClauses, args)
    end in
  let '(setClauses, args) :=
    match up_ProgressPercent req with
    | Some v =>
        ((setClauses ++ ["progress_percent = ?"])%list, (args ++ [VInt v])%list)
    | None => (setClauses, args)
    end in
  (setClauses, args).

(** The statement and arguments sent when at least one field is present
    (lines 249-252). *)
Definition UpdateTodo_query (id : Z) (req : UpdateTodoRequest)
  : string * list sqlval :=
  let '(setClauses, args) := UpdateTodo_clauses req in
  let setClauses := (setClauses ++ ["updated_at = datetime('now')"])%list in
  let args := (args ++ [VInt id])%list in
  ("UPDATE todos SET " ++ strings_Join setClauses ", " ++ " WHERE id = ?",
   args).

Definition UpdateTodo (now : string) (id : Z) (req : UpdateTodoRequest)
           (c : Conn) : Conn * (error + Todo) :=
  if Nat.eqb (List.length (fst (UpdateTodo_clauses req))) 0
  then GetTodo id c
  else
    let '(query, args) := UpdateTodo_query id req in
    let (c1, res) := db_Exec now query args c in
    match res with
    | inl err => (c1, inl (Wrap "update todo" err))
    | inr result =>
        match RowsAffected result with
        | inl err => (c1, inl (Wrap "rows affected" err))
        | inr affected =>
            if affected =? 0 then (c1, inl ErrNotFound)
            else GetTodo id c1
        end
    end.

Definition delete_query : string := "DELETE FROM todos WHERE id = ?".

Definition DeleteTodo (now : string) (id : Z) (c : Conn)
  : Conn * option error :=
  let (c1, res) := db_Exec now delete_query [VInt id] c in
  match res with
  | inl err => (c1, Some (Wrap "delete todo" err))
  | inr result =>
      match RowsAffected result with
      | inl err => (c1, Some (Wrap "rows affected" err))
      | inr affected =>
          if affected =? 0 then (c1, Some ErrNotFound) else (c1, None)
      end
  end.

Definition insert_query : string :=
  "INSERT INTO todos (title, description, status, category, progress_percent)"
  ++ " VALUES (?, ?, ?, ?, ?)".

Definition CreateTodo (now : string) (req : CreateTodoRequest) (c : Conn)
  : Conn * (error + Todo) :=
  let status := StatusPending in
  let status :=
    if negb (cr_Status req =? "")%string then cr_Status req else status in
  let category := CategoryPersonal in
  let category :=
    if negb (cr_Category req =? "")%string then cr_Category req
    else category in
  let progress := 0 in
  let progress :=
    match cr_ProgressPercent req with
    | Some p => p
    | None => progress
    end in
  let (c1, res) :=
    db_Exec now insert_query
            [VText (cr_Title req); VText (cr_Description req);
             VText status; VText category; VInt progress] c in
  match res with
  | inl err => (c1, inl (Wrap "insert todo" err))
  | inr result =>
      match LastInsertId result with
      | inl err => (c1, inl (Wrap "get last insert id" err))
      | inr id => GetTodo id c1
      end
  end.

(** ** Reading the store directly *)

(** The first row with a given id, in storage order. *)
Definition lookup (id : Z) (db : DB) : option Row :=
  find (fun r => r_id r =? id) (tbl db).

(** The record a stored row reads as. *)
Definition todo_of_row (r : Row) : Todo := todo_of (project r).

(** The columns and values an update binds, stated field by field: one pair
    per field that is present, in the order title, description, status,
    category, progress_percent. *)
Definition field_bindings (req : UpdateTodoRequest)
  : list (column * sqlval) :=
  (match up_Title req with Some v => [(Ctitle, VText v)] | None => [] end
   ++ match up_Description req with
      | Some v => [(Cdescription, VText v)] | None => [] end
   ++ match up_Status req with Some v => [(Cstatus, VText v)] | None => [] end
   ++ match up_Category req with
      | Some v => [(Ccategory, VText v)] | None => [] end
   ++ match up_ProgressPercent req with
      | Some v => [(Cprogress, VInt v)] | None => [] end)%list.

Definition update_bindings (id : Z) (req : UpdateTodoRequest)
  : list (column * sqlval) :=
  (field_bindings req ++ [(Cid, VInt id)])%list.

Definition set_of_binding (b : column * sqlval) : setter := SetParam (fst b).

(** The assignments of the statement an update sends: one per present
    field, then the refresh of [updated_at]. *)
Definition update_sets (req : UpdateTodoRequest) : list setter :=
  (map set_of_binding (field_bindings req) ++ [SetNow Cupdated])%list.

(** The columns and values a listing binds: one pair per filter that is
    present, status first. *)
Definition list_bindings (status category : option string)
  : list (column * sqlval) :=
  (match status with Some s => [(Cstatus, VText s)] | None => [] end
   ++ match category with Some k => [(Ccategory, VText k)] | None => [] end
  )%list.

(** A request with the same fields present and every value blanked. *)
Definition blank (req : UpdateTodoRequest) : UpdateTodoRequest :=
  mkUpdate (option_map (fun _ => "") (up_Title req))
           (option_map (fun _ => "") (up_Description req))
           (option_map (fun _ => "") (up_Status req))
           (option_map (fun _ => "") (up_Category req))
           (option_map (fun _ => 0) (up_ProgressPercent req)).

Definition no_fields (req : UpdateTodoRequest) : bool :=
  match up_Title req, up_Description req, up_Status req, up_Category req,
        up_ProgressPercent req with
  | None, None, None, None, None => true
  | _, _, _, _, _ => false
  end.

(** The conjunction of the filters that are present. *)
Definition satisfies (status category : option string) (r : Row) : bool :=
  match status with Some s => (r_status r =? s)%string | None => true end
  && match category with
     | Some k => (r_category r =? k)%string
     | None => true
     end.

(** What a row becomes under an update: each present field replaced, the
    others kept, [updated_at] set to the store's time. *)
Definition updated_row (now : string) (req : UpdateTodoRequest) (r : Row)
  : Row :=
  mkRow (r_id r)
        (match up_Title req with Some v => v | None => r_title r end)
        (match up_Description req with
         | Some v => v | None => r_description r end)
        (match up_Status req with Some v => v | None => r_status r end)
        (match up_Category req with Some v => v | None => r_category r end)
        (match up_ProgressPercent req with
         | Some v => v | None => r_progress r end)
        (r_created_at r) now.

(** The table after an update of the rows with a given id. *)
Definition update_store (now : string) (id : Z) (req : UpdateTodoRequest)
           (db : DB) : DB :=
  mkDB (map (fun r => if r_id r =? id then updated_row now req r else r)
            (tbl db))
       (autoinc db).

(** Every rewritten row passes the CHECK constraints. *)
Definition update_admissible (now : string) (id : Z)
           (req : UpdateTodoRequest) (db : DB) : bool :=
  forallb (fun r => negb (r_id r =? id) || check_row (updated_row now req r))
          (tbl db).

Definition count_id (id : Z) (db : DB) : Z :=
  Z.of_nat (List.length (filter (fun r => r_id r =? id) (tbl db))).

(** The table after the rows with a given id are deleted. *)
Definition delete_store (id : Z) (db : DB) : DB :=
  mkDB (filter (fun r => negb (r_id r =? id)) (tbl db)) (autoinc db).

(** The id an INSERT hands out. *)
Definition next_id (db : DB) : Z := Z.max (autoinc db) (max_id (tbl db)) + 1.

(** The row [CreateTodo] asks the store to insert, under the id and time
    the store supplies. *)
Definition created_row (now : string) (id : Z) (req : CreateTodoRequest)
  : Row :=
  mkRow id (cr_Title req) (cr_Description req)
        (if (cr_Status req =? "")%string then StatusPending
         else cr_Status req)
        (if (cr_Category req =? "")%string then CategoryPersonal
         else cr_Category req)
        (match cr_ProgressPercent req with Some p => p | None => 0 end)
        now now.

Definition create_args (req : CreateTodoRequest) : list sqlval :=
  [VText (cr_Title req); VText (cr_Description req);
   VText (if (cr_Status req =? "")%string then StatusPending
          else cr_Status req);
   VText (if (cr_Category req =? "")%string then CategoryPersonal
          else cr_Category req);
   VInt (match cr_ProgressPercent req with Some p => p | None => 0 end)].

Definition with_status (s : string) (req : CreateTodoRequest)
  : CreateTodoRequest :=
  mkCreate (cr_Title req) (cr_Description req) s (cr_Category req)
           (cr_ProgressPercent req).

Definition with_category (k : string) (req : CreateTodoRequest)
  : CreateTodoRequest :=
  mkCreate (cr_Title req) (cr_Description req) (cr_Status req) k
           (cr_ProgressPercent req).

(** Ascending order of id. *)
Definition id_le (a b : Row) : Prop := r_id a <= r_id b.

(** The calls a connection has seen beyond those of an earlier one. *)
Definition issued (before after : Conn) : list call :=
  skipn (List.length (trace before)) (trace after).


(** The store after a create that goes through, and whether it does. *)
Definition create_store (now : string) (req : CreateTodoRequest) (db : DB)
  : DB :=
  mkDB (tbl db ++ [created_row now (next_id db) req])%list (next_id db).

Definition create_ok (now : string) (req : CreateTodoRequest) (db : DB)
  : bool :=
  negb (max_int64 <? next_id db)
  && check_row (created_row now (next_id db) req).


(** The records of a listing; nothing on an error. *)
Definition listed (res : error + slice Todo) : list Todo :=
  match res with
  | inr (mk_slice l) => l
  | _ => []
  end.

(** ** internal/handler *)

(** The handlers of [TodoHandler], with the repository's connection threaded
    through them; what they write to the logger is left out.  An input that
    is refused comes back with the connection untouched. *)



Definition TodoHandler_CreateTodo (now : string) (body : CreateTodoRequest)
           (c : Conn) : Conn * (StatusError + Todo) :=
  if (cr_Title body =? "")%string
  then (c, inl (Error400BadRequest "title is required"))
  else if negb (cr_Status body =? "")%string
          && negb (ValidStatuses (cr_Status body))
  then (c, inl (Error400BadRequest
                  "status must be one of: pending, in_progress, done"))
  else if negb (cr_Category body =? "")%string
          && negb (ValidCategories (cr_Category body))
  then (c, inl (Error400BadRequest
                  "category must be one of: personal, work, other"))
  else if match cr_ProgressPercent body with
          | Some p => (p <? 0) || (100 <? p)
          | None => false
          end
  then (c, inl (Error400BadRequest
                  "progress_percent must be between 0 and 100"))
  else
    let (c', res) := CreateTodo now body c in
    match res with
    | inl err =>
        (c', inl (Error500InternalServerError "failed to create todo"))
    | inr todo => (c', inr todo)
    end.

Definition TodoHandler_GetTodo (id : Z) (c : Conn)
  : Conn * (StatusError + Todo) :=
  let (c', res) := GetTodo id c in
  match res with
  | inl err =>
      if errors_Is err ErrNotFound
      then (c', inl (Error404NotFound (not_found_detail id)))
      else (c', inl (Error500InternalServerError "failed to retrieve todo"))
  | inr todo => (c', inr todo)
  end.

Definition TodoHandler_UpdateTodo (now : string) (id : Z)
           (body : UpdateTodoRequest) (c : Conn)
  : Conn * (StatusError + Todo) :=
  if match up_Status body with
     | Some s => negb (ValidStatuses s)
     | None => false
     end
  then (c, inl (Error400BadRequest
                  "status must be one of: pending, in_progress, done"))
  else if match up_Category body with
          | Some k => negb (ValidCategories k)
          | None => false
          end
  then (c, inl (Error400BadRequest
                  "category must be one of: personal, work, other"))
  else if match up_ProgressPercent body with
          | Some p => (p <? 0) || (100 <? p)
          | None => false
          end
  then (c, inl (Error400BadRequest
                  "progress_percent must be between 0 and 100"))
  else
    let (c', res) := UpdateTodo now id body c in
    match res with
    | inl err =>
        if errors_Is err ErrNotFound
        then (c', inl (Error404NotFound (not_found_detail id)))
        else (c', inl (Error500InternalServerError "failed to update todo"))
    | inr todo => (c', inr todo)
    end.


(** The checks of the create handler, all passed. *)
Definition create_accepted (body : CreateTodoRequest) : bool :=
  negb (cr_Title body =? "")%string
  && ((cr_Status body =? "")%string || ValidStatuses (cr_Status body))
  && ((cr_Category body =? "")%string || ValidCategories (cr_Category body))
  && match cr_ProgressPercent body with
     | Some p => (0 <=? p) && (p <=? 100)
     | None => true
     end.

(** The checks of the update handler, all passed. *)
Definition update_accepted (body : UpdateTodoRequest) : bool :=
  match up_Status body with Some s => ValidStatuses s | None => true end
  && match up_Category body with
     | Some k => ValidCategories k
     | None => true
     end
  && match up_ProgressPercent body with
     | Some p => (0 <=? p) && (p <=? 100)
     | None => true
     end.

(** * Properties *)

(** ** Statement texts *)

Lemma parse_get_query : parse_stmt get_query = Some (SSelect [Cid] false).
Proof. vm_compute. reflexivity. Qed.

Lemma parse_delete_query : parse_stmt delete_query = Some (SDelete [Cid]).
Proof. vm_compute. reflexivity. Qed.

Lemma parse_insert_query :
  parse_stmt insert_query
  = Some (SInsert [Ctitle; Cdescription; Cstatus; Ccategory; Cprogress]).
Proof. vm_compute. reflexivity. Qed.

Lemma parse_list_query (status category : option string) :
  parse_stmt (fst (ListTodos_query status category))
  = Some (SSelect (map fst (list_bindings status category)) true).
Proof. destruct status, category; vm_compute; reflexivity. Qed.

Lemma list_query_args (status category : option string) :
  snd (ListTodos_query status category)
  = map snd (list_bindings status category).
Proof. destruct status, category; reflexivity. Qed.

Lemma parse_update_query (id : Z) (req : UpdateTodoRequest) :
  parse_stmt (fst (UpdateTodo_query id req))
  = Some (SUpdate (update_sets req) [Cid]).
Proof.
  destruct req as [[t|] [d|] [s|] [k|] [p|]]; vm_compute; reflexivity.
Qed.

Lemma update_query_args (id : Z) (req : UpdateTodoRequest) :
  snd (UpdateTodo_query id req) = map snd (update_bindings id req).
Proof. destruct req as [[t|] [d|] [s|] [k|] [p|]]; reflexivity. Qed.

Lemma clauses_empty_iff (req : UpdateTodoRequest) :
  Nat.eqb (List.length (fst (UpdateTodo_clauses req))) 0 = no_fields req.
Proof. destruct req as [[t|] [d|] [s|] [k|] [p|]]; reflexivity. Qed.

(** C2.  For every combination of present and absent filters of a listing
    and of present and absent fields of an update, the statement built has
    as many positional placeholders as there are arguments, the i-th
    placeholder stands by the column whose value is the i-th argument, and
    the statement text is the one built from blanked values: a value
    reaches the store as an argument only, never as statement text. *)
Theorem C2_placeholders_match_arguments :
  (forall status category : option string,
      let q := fst (ListTodos_query status category) in
      let args := snd (ListTodos_query status category) in
      placeholders q = List.length args
      /\ placeholder_columns (tokenize q)
         = map (fun b => Some (fst b)) (list_bindings status category)
      /\ args = map snd (list_bindings status category)
      /\ q = fst (ListTodos_query (option_map (fun _ => "") status)
                                  (option_map (fun _ => "") category)))
  /\ (forall (id : Z) (req : UpdateTodoRequest),
         let q := fst (UpdateTodo_query id req) in
         let args := snd (UpdateTodo_query id req) in
         placeholders q = List.length args
         /\ placeholder_columns (tokenize q)
            = map (fun b => Some (fst b)) (update_bindings id req)
         /\ args = map snd (update_bindings id req)
         /\ q = fst (UpdateTodo_query 0 (blank req))).
Proof.
  split.
  - intros status category; destruct status, category; cbv zeta;
      repeat split; vm_compute; reflexivity.
  - intros id req; destruct req as [[t|] [d|] [s|] [k|] [p|]]; cbv zeta;
      repeat split; vm_compute; reflexivity.
Qed.

(** ** Reading a record *)

Lemma matches_id (id : Z) (r : Row) :
  matches [Cid] [VInt id] r = (r_id r =? id).
Proof. simpl. apply andb_true_r. Qed.

Lemma filter_matches_id (id : Z) (rows : list Row) :
  filter (matches [Cid] [VInt id]) rows
  = filter (fun r => r_id r =? id) rows.
Proof. apply filter_ext. intro r. apply matches_id. Qed.

Lemma scan_first (f : Row -> bool) (rows : list Row) :
  row_Scan (inr (map project (filter f rows)))
  = match find f rows with
    | Some r => inr (project r)
    | None => inl sql_ErrNoRows
    end.
Proof.
  induction rows as [|r rows IH]; simpl; [reflexivity|].
  destruct (f r); simpl; [reflexivity | exact IH].
Qed.

Lemma GetTodo_spec (id : Z) (c : Conn) :
  GetTodo id c
  = (mkConn (store c) (trace c ++ [CQuery get_query [VInt id]])%list,
     match lookup id (store c) with
     | Some r => inr (todo_of_row r)
     | None => inl ErrNotFound
     end).
Proof.
  unfold GetTodo, db_QueryRow, db_Query.
  rewrite parse_get_query.
  change (Nat.eqb (List.length [VInt id]) (List.length [Cid])) with true.
  cbv iota. f_equal.
  unfold scanTodo, select_rows, lookup.
  rewrite filter_matches_id, scan_first.
  destruct (find _ _); reflexivity.
Qed.


(** ** Updating *)

Lemma apply_sets_updated (now : string) (req : UpdateTodoRequest) (r : Row) :
  apply_sets now (update_sets req) (map snd (field_bindings req)) r
  = Some (updated_row now req r).
Proof.
  destruct req as [[t|] [d|] [s|] [k|] [p|]]; destruct r; reflexivity.
Qed.

Lemma update_rows_spec (now : string) (id : Z) (req : UpdateTodoRequest)
      (db : DB) :
  update_rows now (update_sets req) (map snd (field_bindings req))
              [Cid] [VInt id] (tbl db)
  = if update_admissible now id req db
    then inr (tbl (update_store now id req db), count_id id db)
    else inl err_constraint.
Proof.
  unfold update_admissible, update_store, count_id. cbn [tbl].
  induction (tbl db) as [|r rows IH]; [reflexivity|].
  cbn [update_rows forallb map filter]. rewrite IH, matches_id.
  destruct (forallb _ rows).
  - destruct (r_id r =? id); cbn [negb orb andb].
    + rewrite apply_sets_updated.
      destruct (check_row _); cbn [andb]; [|reflexivity].
      cbn [List.length]. do 2 f_equal. lia.
    + reflexivity.
  - rewrite andb_false_r. reflexivity.
Qed.

Lemma update_args_split (id : Z) (req : UpdateTodoRequest) :
  let n := List.length (filter is_set_param (update_sets req)) in
  let args := map snd (update_bindings id req) in
  Nat.eqb (List.length args) (bind_count (SUpdate (update_sets req) [Cid]))
  = true
  /\ firstn n args = map snd (field_bindings req)
  /\ skipn n args = [VInt id].
Proof.
  destruct req as [[t|] [d|] [s|] [k|] [p|]]; repeat split; reflexivity.
Qed.

Lemma exec_update_spec (now : string) (id : Z) (req : UpdateTodoRequest)
      (db : DB) :
  exec_stmt now (SUpdate (update_sets req) [Cid])
            (map snd (update_bindings id req)) db
  = if update_admissible now id req db
    then inr (update_store now id req db, mkResult 0 (count_id id db))
    else inl err_constraint.
Proof.
  unfold exec_stmt.
  destruct (update_args_split id req) as (H1 & H2 & H3).
  rewrite H1. cbn [negb]. rewrite H2, H3, update_rows_spec.
  destruct (update_admissible _ _ _ _); reflexivity.
Qed.

Lemma UpdateTodo_fields (now : string) (id : Z) (req : UpdateTodoRequest)
      (c : Conn) :
  no_fields req = false ->
  UpdateTodo now id req c
  = let tr := (trace c ++ [CExec (fst (UpdateTodo_query id req))
                                 (snd (UpdateTodo_query id req))])%list in
    if update_admissible now id req (store c) then
      if count_id id (store c) =? 0
      then (mkConn (update_store now id req (store c)) tr, inl ErrNotFound)
      else GetTodo id (mkConn (update_store now id req (store c)) tr)
    else (mkConn (store c) tr, inl (Wrap "update todo" err_constraint)).
Proof.
  intro Hf. unfold UpdateTodo. rewrite clauses_empty_iff, Hf.
  destruct (UpdateTodo_query id req) as [q args] eqn:Hq.
  pose proof (parse_update_query id req) as Hp.
  pose proof (update_query_args id req) as Ha.
  rewrite Hq in Hp, Ha. cbn [fst snd] in *.
  unfold db_Exec. rewrite Hp. subst args.
  rewrite exec_update_spec.
  destruct (update_admissible _ _ _ _); [|reflexivity].
  unfold RowsAffected. cbn [res_RowsAffected].
  destruct (count_id id (store c) =? 0); reflexivity.
Qed.

Lemma UpdateTodo_no_fields (now : string) (id : Z) (req : UpdateTodoRequest)
      (c : Conn) :
  no_fields req = true -> UpdateTodo now id req c = GetTodo id c.
Proof.
  intro Hf. unfold UpdateTodo. rewrite clauses_empty_iff, Hf. reflexivity.
Qed.



Lemma lookup_update_store (now : string) (id : Z) (req : UpdateTodoRequest)
      (db : DB) :
  lookup id (update_store now id req db)
  = option_map (updated_row now req) (lookup id db).
Proof.
  unfold lookup, update_store. cbn [tbl].
  induction (tbl db) as [|r rows IH]; [reflexivity|].
  cbn [map find]. destruct (r_id r =? id) eqn:E.
  - cbn [updated_row r_id]. rewrite E. reflexivity.
  - rewrite E. exact IH.
Qed.

Lemma issued_app (c c' : Conn) (l : list call) :
  trace c' = (trace c ++ l)%list -> issued c c' = l.
Proof.
  unfold issued. intros ->. induction (trace c); [reflexivity | assumption].
Qed.

Lemma updated_row_no_fields (now : string) (req : UpdateTodoRequest)
      (r : Row) :
  no_fields req = true ->
  updated_row now req r
  = mkRow (r_id r) (r_title r) (r_description r) (r_status r) (r_category r)
          (r_progress r) (r_created_at r) now.
Proof.
  destruct req as [[t|] [d|] [s|] [k|] [p|]]; try discriminate. reflexivity.
Qed.


(** C1.  An update that succeeds writes the fields present in the request
    and no other: in the record it returns, every field whose marker was
    absent has the value it had before, and every field that was present has
    the value supplied (the empty string when the empty string was
    supplied); id and creation time are kept, the record returned is what a
    read gives afterwards, and rows with another id are still in the
    table. *)
Theorem C1_update_writes_only_present_fields
        (now : string) (id : Z) (req : UpdateTodoRequest) (c c' : Conn)
        (old t : Todo) :
  snd (GetTodo id c) = inr old ->
  UpdateTodo now id req c = (c', inr t) ->
  Title t = match up_Title req with Some v => v | None => Title old end
  /\ Description t
     = match up_Description req with Some v => v | None => Description old end
  /\ Status t = match up_Status req with Some v => v | None => Status old end
  /\ Category t
     = match up_Category req with Some v => v | None => Category old end
  /\ ProgressPercent t
     = match up_ProgressPercent req with
       | Some v => v | None => ProgressPercent old end
  /\ ID t = ID old
  /\ CreatedAt t = CreatedAt old
  /\ snd (GetTodo id c') = inr t
  /\ (forall r, In r (tbl (store c)) -> r_id r <> id ->
                In r (tbl (store c'))).
Proof.
  intros Hold Hup. rewrite GetTodo_spec in Hold. cbn [snd] in Hold.
  destruct (lookup id (store c)) as [r|] eqn:Hl; [|discriminate].
  injection Hold as <-.
  destruct (no_fields req) eqn:Hf.
  - rewrite (UpdateTodo_no_fields now id req c Hf), GetTodo_spec, Hl in Hup.
    injection Hup as <- <-. rewrite GetTodo_spec. cbn [snd store].
    rewrite Hl.
    destruct req as [[a|] [d|] [s|] [k|] [p|]]; try discriminate.
    cbn. repeat split; auto.
  - rewrite (UpdateTodo_fields now id req c Hf) in Hup. cbv zeta in Hup.
    destruct (update_admissible now id req (store c)); [|discriminate].
    destruct (count_id id (store c) =? 0); [discriminate|].
    rewrite GetTodo_spec in Hup. cbn [store] in Hup.
    rewrite lookup_update_store, Hl in Hup. cbn [option_map] in Hup.
    injection Hup as <- <-. rewrite GetTodo_spec. cbn [snd store trace].
    rewrite lookup_update_store, Hl. cbn [option_map].
    repeat split; try (destruct req as [[a|] [d|] [s|] [k|] [p|]];
                       reflexivity).
    intros r0 Hin Hne. unfold update_store. cbn [tbl].
    apply in_map_iff. exists r0. split; [|exact Hin].
    destruct (Z.eqb_spec (r_id r0) id); [contradiction | reflexivity].
Qed.


(** C10.  An update without any field on an id that is not in the store
    fails with [ErrNotFound]; the only statement it sends is the read by
    id, which yields no row ([sql.ErrNoRows] at the scan); no write is
    sent and the store is as before. *)
Theorem C10_empty_update_not_found_by_reread
        (now : string) (id : Z) (req : UpdateTodoRequest) (c : Conn) :
  no_fields req = true ->
  lookup id (store c) = None ->
  snd (UpdateTodo now id req c) = inl ErrNotFound
  /\ issued c (fst (UpdateTodo now id req c)) = [CQuery get_query [VInt id]]
  /\ row_Scan (snd (db_QueryRow get_query [VInt id] c)) = inl sql_ErrNoRows
  /\ scanTodo (snd (db_QueryRow get_query [VInt id] c)) = inl ErrNotFound
  /\ store (fst (UpdateTodo now id req c)) = store c.
Proof.
  intros Hf Hl.
  rewrite (UpdateTodo_no_fields now id req c Hf), GetTodo_spec, Hl.
  cbn [fst snd store]. split; [reflexivity|]. split.
  { erewrite issued_app; reflexivity. }
  assert (Hs : row_Scan (snd (db_QueryRow get_query [VInt id] c))
               = inl sql_ErrNoRows).
  { unfold db_QueryRow, db_Query. rewrite parse_get_query.
    change (Nat.eqb (List.length [VInt id]) (List.length [Cid])) with true.
    cbv iota. cbn [snd]. unfold select_rows.
    rewrite filter_matches_id, scan_first. unfold lookup in Hl.
    rewrite Hl. reflexivity. }
  split; [exact Hs|]. split; [|reflexivity].
  unfold scanTodo. rewrite Hs. reflexivity.
Qed.

(** ** Deleting *)

Lemma DeleteTodo_spec (now : string) (id : Z) (c : Conn) :
  DeleteTodo now id c
  = (mkConn (delete_store id (store c))
            (trace c ++ [CExec delete_query [VInt id]])%list,
     if count_id id (store c) =? 0 then Some ErrNotFound else None).
Proof.
  unfold DeleteTodo, db_Exec. rewrite parse_delete_query.
  unfold exec_stmt.
  change (Nat.eqb (List.length [VInt id]) (bind_count (SDelete [Cid])))
    with true.
  cbn [negb]. unfold RowsAffected. cbn [res_RowsAffected].
  rewrite filter_matches_id.
  rewrite (filter_ext (fun r => negb (matches [Cid] [VInt id] r))
                      (fun r => negb (r_id r =? id))).
  2:{ intro r. rewrite matches_id. reflexivity. }
  fold (count_id id (store c)). fold (delete_store id (store c)).
  destruct (count_id id (store c) =? 0); reflexivity.
Qed.




(** ** Creating *)

Lemma CreateTodo_spec (now : string) (req : CreateTodoRequest) (c : Conn) :
  CreateTodo now req c
  = let id := next_id (store c) in
    let tr := (trace c ++ [CExec insert_query (create_args req)])%list in
    if max_int64 <? id
    then (mkConn (store c) tr, inl (Wrap "insert todo" err_full))
    else if check_row (created_row now id req)
    then GetTodo id (mkConn (mkDB (tbl (store c)
                                   ++ [created_row now id req])%list id) tr)
    else (mkConn (store c) tr, inl (Wrap "insert todo" err_constraint)).
Proof.
  unfold CreateTodo, db_Exec. rewrite parse_insert_query.
  unfold exec_stmt, create_args, created_row, next_id.
  cbn [List.length bind_count Nat.eqb negb has_column existsb column_eqb
       orb assign_all assign default_row r_id r_title r_description
       r_status r_category r_progress r_created_at r_updated_at].
  destruct (cr_Status req =? "")%string;
    destruct (cr_Category req =? "")%string;
    cbn [negb];
    destruct (max_int64
              <? Z.max (autoinc (store c)) (max_id (tbl (store c))) + 1);
    try reflexivity;
    match goal with
    | |- context [check_row ?r] => destruct (check_row r)
    end; reflexivity.
Qed.

Lemma max_id_bound (rows : list Row) (r : Row) :
  In r rows -> r_id r <= max_id rows.
Proof.
  induction rows as [|x rows IH]; simpl; [contradiction|].
  intros [->|H]; [lia|]. specialize (IH H). lia.
Qed.

Lemma lookup_fresh (db : DB) : lookup (next_id db) db = None.
Proof.
  unfold lookup, next_id.
  destruct (find _ _) as [r|] eqn:E; [|reflexivity].
  apply find_some in E. destruct E as [Hin Heq].
  apply max_id_bound in Hin. apply Z.eqb_eq in Heq. lia.
Qed.

Lemma find_app_last (f : Row -> bool) (rows : list Row) (r : Row) :
  find f rows = None -> f r = true -> find f (rows ++ [r]) = Some r.
Proof.
  induction rows as [|x rows IH]; simpl; intros Hn Hr.
  - rewrite Hr. reflexivity.
  - destruct (f x); [discriminate|]. exact (IH Hn Hr).
Qed.

Lemma CreateTodo_ok (now : string) (req : CreateTodoRequest) (c c' : Conn)
      (t : Todo) :
  CreateTodo now req c = (c', inr t) ->
  let r := created_row now (next_id (store c)) req in
  t = todo_of_row r
  /\ store c' = mkDB (tbl (store c) ++ [r])%list (next_id (store c))
  /\ trace c' = (trace c ++ [CExec insert_query (create_args req);
                             CQuery get_query [VInt (r_id r)]])%list
  /\ lookup (r_id r) (store c') = Some r.
Proof.
  intro H. rewrite CreateTodo_spec in H. cbv zeta in H.
  destruct (max_int64 <? next_id (store c)); [discriminate|].
  destruct (check_row _); [|discriminate].
  rewrite GetTodo_spec in H. cbn [store trace] in H.
  assert (Hl : lookup (next_id (store c))
                      (mkDB (tbl (store c)
                             ++ [created_row now (next_id (store c)) req])
                            (next_id (store c)))
               = Some (created_row now (next_id (store c)) req)).
  { unfold lookup. cbn [tbl]. apply find_app_last.
    - exact (lookup_fresh (store c)).
    - cbn [created_row r_id]. apply Z.eqb_refl. }
  rewrite Hl in H. injection H as <- <-. cbv zeta. cbn [store trace].
  repeat split.
  - rewrite <- app_assoc. reflexivity.
  - exact Hl.
Qed.

(** A create goes through whenever the store can hand out an id and the
    row passes the CHECK constraints. *)
Lemma CreateTodo_succeeds (now : string) (req : CreateTodoRequest)
      (c : Conn) :
  next_id (store c) <= max_int64 ->
  check_row (created_row now (next_id (store c)) req) = true ->
  exists c' t, CreateTodo now req c = (c', inr t).
Proof.
  intros Hid Hck. rewrite CreateTodo_spec. cbv zeta.
  destruct (Z.ltb_spec max_int64 (next_id (store c))) as [Hlt|_]; [lia|].
  rewrite Hck, GetTodo_spec. cbn [store].
  unfold lookup. cbn [tbl].
  rewrite (find_app_last _ _ _ (lookup_fresh (store c)));
    [eauto | cbn [created_row r_id]; apply Z.eqb_refl].
Qed.

(** C4.  A create that succeeds returns a record with the defaults for
    what the request did not supply (status pending, category personal,
    progress 0) and with equal creation and update times.  The record is the
    row read back from the store by the id the store assigned, through the
    read issued after the insert: the id was not in the store before, the
    stored row carries the store's time in both timestamp columns, and a
    later read by that id returns the same record. *)
Theorem C4_create_defaults_and_reread
        (now : string) (req : CreateTodoRequest) (c c' : Conn) (t : Todo) :
  CreateTodo now req c = (c', inr t) ->
  (cr_Status req = "" -> Status t = StatusPending)
  /\ (cr_Category req = "" -> Category t = CategoryPersonal)
  /\ (cr_ProgressPercent req = None -> ProgressPercent t = 0)
  /\ CreatedAt t = UpdatedAt t
  /\ issued c c' = [CExec insert_query (create_args req);
                    CQuery get_query [VInt (ID t)]]
  /\ lookup (ID t) (store c) = None
  /\ (exists r, lookup (ID t) (store c') = Some r
                /\ t = todo_of_row r
                /\ r_created_at r = now /\ r_updated_at r = now)
  /\ snd (GetTodo (ID t) c') = inr t.
Proof.
  intro H. destruct (CreateTodo_ok now req c H) as (Ht & Hs & Htr & Hl).
  cbv zeta in *. subst t.
  cbn [todo_of_row todo_of project created_row Status Category
       ProgressPercent CreatedAt UpdatedAt ID r_id r_status r_category
       r_progress r_created_at r_updated_at q_id q_status q_category
       q_progress q_created q_updated] in *.
  repeat split.
  - intros ->. reflexivity.
  - intros ->. reflexivity.
  - intros ->. reflexivity.
  - apply issued_app. exact Htr.
  - apply lookup_fresh.
  - eexists. split; [exact Hl|]. repeat split.
  - rewrite GetTodo_spec, Hl. reflexivity.
Qed.

(** C9.  A create request carries status and category as plain strings:
    the empty string is the only way to leave them out, and a request with
    an empty status (category) is handled exactly as the same request with
    status pending (category personal), statement, arguments and outcome
    alike.  No successful create yields a record whose status or category
    is empty. *)
Theorem C9_create_empty_enum_means_default :
  (forall (now : string) (req : CreateTodoRequest) (c : Conn),
      CreateTodo now (with_status "" req) c
      = CreateTodo now (with_status StatusPending req) c
      /\ CreateTodo now (with_category "" req) c
         = CreateTodo now (with_category CategoryPersonal req) c)
  /\ (forall (now : string) (req : CreateTodoRequest) (c c' : Conn)
             (t : Todo),
         CreateTodo now req c = (c', inr t) ->
         Status t <> "" /\ Category t <> ""
         /\ (cr_Status req = "" -> Status t = StatusPending)
         /\ (cr_Category req = "" -> Category t = CategoryPersonal)).
Proof.
  split.
  - intros now req c. split; reflexivity.
  - intros now req c c' t H.
    destruct (CreateTodo_ok now req c H) as (Ht & _). cbv zeta in Ht.
    subst t.
    cbn [todo_of_row todo_of project created_row Status Category
         r_status r_category q_status q_category].
    repeat split.
    + destruct (String.eqb_spec (cr_Status req) ""); [discriminate|assumption].
    + destruct (String.eqb_spec (cr_Category req) "");
        [discriminate|assumption].
    + intros ->. reflexivity.
    + intros ->. reflexivity.
Qed.

(** ** Listing *)

Lemma insert_by_id_perm (r : Row) (l : list Row) :
  Permutation (insert_by_id r l) (r :: l).
Proof.
  induction l as [|x l IH]; simpl; [reflexivity|].
  destruct (r_id r <=? r_id x); [reflexivity|].
  rewrite IH. apply perm_swap.
Qed.

Lemma sort_by_id_perm (l : list Row) : Permutation (sort_by_id l) l.
Proof.
  induction l as [|x l IH]; simpl; [reflexivity|].
  rewrite insert_by_id_perm. apply perm_skip. exact IH.
Qed.

Lemma insert_by_id_sorted (r : Row) (l : list Row) :
  StronglySorted id_le l -> StronglySorted id_le (insert_by_id r l).
Proof.
  induction l as [|x l IH]; simpl; intro Hs.
  - constructor; constructor.
  - inversion Hs as [|? ? Hl Hx]; subst.
    destruct (Z.leb_spec (r_id r) (r_id x)) as [Hle|Hgt].
    + constructor; [exact Hs|]. constructor; [exact Hle|].
      eapply Forall_impl; [|exact Hx]. unfold id_le. intros; lia.
    + constructor; [exact (IH Hl)|].
      eapply Permutation_Forall;
        [symmetry; apply insert_by_id_perm|].
      constructor; [unfold id_le; lia | exact Hx].
Qed.

Lemma sort_by_id_sorted (l : list Row) : StronglySorted id_le (sort_by_id l).
Proof.
  induction l as [|x l IH]; simpl; [constructor|].
  apply insert_by_id_sorted. exact IH.
Qed.


Lemma append_loop (rows : list QRow) (acc : list Todo) :
  fold_left (fun ts q => append ts (todo_of q)) rows (mk_slice acc)
  = mk_slice (acc ++ map todo_of rows).
Proof.
  revert acc. induction rows as [|q rows IH]; intro acc; simpl.
  - rewrite app_nil_r. reflexivity.
  - rewrite IH, <- app_assoc. reflexivity.
Qed.

Lemma collect_rows (rows : list QRow) :
  (let todos := fold_left (fun ts q => append ts (todo_of q)) rows
                          nil_slice in
   if is_nil todos then mk_slice [] else todos)
  = mk_slice (map todo_of rows).
Proof.
  destruct rows as [|q rows]; [reflexivity|].
  cbv zeta. cbn [fold_left append]. rewrite append_loop. reflexivity.
Qed.

Lemma matches_satisfies (status category : option string) (r : Row) :
  matches (map fst (list_bindings status category))
          (map snd (list_bindings status category)) r
  = satisfies status category r.
Proof.
  destruct status, category; unfold satisfies; simpl;
    rewrite ?andb_true_r; reflexivity.
Qed.

Lemma ListTodos_spec (status category : option string) (c : Conn) :
  ListTodos status category c
  = (mkConn (store c)
            (trace c ++ [CQuery (fst (ListTodos_query status category))
                                (snd (ListTodos_query status category))]),
     inr (mk_slice
            (map todo_of_row
                 (sort_by_id (filter (satisfies status category)
                                     (tbl (store c))))))).
Proof.
  unfold ListTodos.
  destruct (ListTodos_query status category) as [q args] eqn:Hq.
  pose proof (parse_list_query status category) as Hp.
  pose proof (list_query_args status category) as Ha.
  rewrite Hq in Hp, Ha. cbn [fst snd] in *.
  unfold db_Query. rewrite Hp. subst args.
  rewrite !length_map, Nat.eqb_refl. f_equal.
  rewrite collect_rows. unfold select_rows.
  rewrite (filter_ext _ _ (matches_satisfies status category)).
  rewrite map_map. reflexivity.
Qed.


(** ** Timestamps that do not parse *)

Lemma lookup_in (id : Z) (db : DB) (r : Row) :
  lookup id db = Some r -> In r (tbl db) /\ r_id r = id.
Proof.
  unfold lookup. intro H. apply find_some in H.
  destruct H as [Hin Heq]. apply Z.eqb_eq in Heq. split; assumption.
Qed.


(** * Further properties of the repository *)

(** ** The store after each operation *)

Lemma UpdateTodo_store (now : string) (id : Z) (req : UpdateTodoRequest)
      (c : Conn) :
  store (fst (UpdateTodo now id req c))
  = if no_fields req then store c
    else if update_admissible now id req (store c)
         then update_store now id req (store c)
         else store c.
Proof.
  destruct (no_fields req) eqn:Hf.
  - rewrite (UpdateTodo_no_fields now id req c Hf), GetTodo_spec. reflexivity.
  - rewrite (UpdateTodo_fields now id req c Hf). cbv zeta.
    destruct (update_admissible now id req (store c)); [|reflexivity].
    destruct (count_id id (store c) =? 0); [reflexivity|].
    rewrite GetTodo_spec. reflexivity.
Qed.

Lemma CreateTodo_outcome (now : string) (req : CreateTodoRequest)
      (c : Conn) :
  store (fst (CreateTodo now req c))
  = (if create_ok now req (store c) then create_store now req (store c)
     else store c)
  /\ snd (CreateTodo now req c)
     = if max_int64 <? next_id (store c)
       then inl (Wrap "insert todo" err_full)
       else if check_row (created_row now (next_id (store c)) req)
            then inr (todo_of_row (created_row now (next_id (store c)) req))
            else inl (Wrap "insert todo" err_constraint).
Proof.
  rewrite CreateTodo_spec. cbv zeta. unfold create_ok, create_store.
  destruct (max_int64 <? next_id (store c)); cbn [negb andb];
    [split; reflexivity|].
  destruct (check_row _); [|split; reflexivity].
  rewrite GetTodo_spec. cbn [fst snd store]. split; [reflexivity|].
  unfold lookup. cbn [tbl].
  rewrite (find_app_last _ _ _ (lookup_fresh (store c)));
    [reflexivity | cbn [created_row r_id]; apply Z.eqb_refl].
Qed.

Lemma lookup_delete_store (id id' : Z) (db : DB) :
  lookup id' (delete_store id db)
  = if id' =? id then None else lookup id' db.
Proof.
  unfold lookup, delete_store. cbn [tbl].
  induction (tbl db) as [|r rows IH]; cbn [filter find].
  - destruct (id' =? id); reflexivity.
  - destruct (Z.eqb_spec (r_id r) id) as [E|E]; cbn [negb find].
    + rewrite IH. destruct (Z.eqb_spec id' id) as [E'|E'].
      * destruct (r_id r =? id'); reflexivity.
      * destruct (Z.eqb_spec (r_id r) id'); [congruence | reflexivity].
    + destruct (r_id r =? id') eqn:E2.
      * apply Z.eqb_eq in E2.
        destruct (Z.eqb_spec id' id); [congruence | reflexivity].
      * exact IH.
Qed.

Lemma lookup_update_store_other (now : string) (id id' : Z)
      (req : UpdateTodoRequest) (db : DB) :
  id' <> id ->
  lookup id' (update_store now id req db) = lookup id' db.
Proof.
  intro Hne. unfold lookup, update_store. cbn [tbl].
  induction (tbl db) as [|r rows IH]; [reflexivity|].
  cbn [map find]. destruct (Z.eqb_spec (r_id r) id) as [E|E].
  - cbn [updated_row r_id].
    destruct (Z.eqb_spec (r_id r) id'); [congruence | exact IH].
  - destruct (r_id r =? id'); [reflexivity | exact IH].
Qed.

Lemma lookup_create_store (now : string) (req : CreateTodoRequest)
      (id' : Z) (db : DB) (r : Row) :
  lookup id' db = Some r -> lookup id' (create_store now req db) = Some r.
Proof.
  unfold lookup, create_store. cbn [tbl].
  induction (tbl db) as [|x rows IH]; cbn [find app]; [discriminate|].
  destruct (r_id x =? id'); [trivial | exact IH].
Qed.

(** ** Reads of other records *)

(** An update or a delete of one id, whatever its outcome, leaves what a
    read by any other id returns; a create, whatever its outcome, leaves
    what a read of any existing record returns. *)
Theorem reads_of_other_records_unchanged
        (now : string) (id id' : Z) (req : UpdateTodoRequest)
        (creq : CreateTodoRequest) (c : Conn) :
  id' <> id ->
  snd (GetTodo id' (fst (UpdateTodo now id req c))) = snd (GetTodo id' c)
  /\ snd (GetTodo id' (fst (DeleteTodo now id c))) = snd (GetTodo id' c)
  /\ (forall r, lookup id' (store c) = Some r ->
                snd (GetTodo id' (fst (CreateTodo now creq c)))
                = snd (GetTodo id' c)).
Proof.
  intro Hne. rewrite !GetTodo_spec. cbn [snd]. split; [|split].
  - rewrite UpdateTodo_store.
    destruct (no_fields req); [reflexivity|].
    destruct (update_admissible now id req (store c)); [|reflexivity].
    rewrite (lookup_update_store_other now req (store c) Hne). reflexivity.
  - rewrite DeleteTodo_spec. cbn [fst store]. rewrite lookup_delete_store.
    destruct (Z.eqb_spec id' id); [contradiction | reflexivity].
  - intros r Hl. rewrite (proj1 (CreateTodo_outcome now creq c)).
    destruct (create_ok now creq (store c)); [|reflexivity].
    rewrite (lookup_create_store now creq id' (store c) Hl), Hl.
    reflexivity.
Qed.

(** ** NotFound exactly when the record is absent *)


(** ** The schema's constraints are kept *)

Lemma ids_update_store (now : string) (id : Z) (req : UpdateTodoRequest)
      (db : DB) :
  map r_id (tbl (update_store now id req db)) = map r_id (tbl db).
Proof.
  unfold update_store. cbn [tbl]. rewrite map_map. apply map_ext.
  intro r. destruct (r_id r =? id); reflexivity.
Qed.

Lemma NoDup_ids_filter (f : Row -> bool) (rows : list Row) :
  NoDup (map r_id rows) -> NoDup (map r_id (filter f rows)).
Proof.
  induction rows as [|r rows IH]; cbn [map filter]; [trivial|].
  intro H. inversion H as [|? ? Hn Hd]; subst.
  destruct (f r); [|exact (IH Hd)].
  cbn [map]. constructor; [|exact (IH Hd)].
  intro Hin. apply Hn. apply in_map_iff in Hin.
  destruct Hin as (x & Hx & Hf). apply filter_In in Hf.
  apply in_map_iff. exists x. tauto.
Qed.

Lemma well_formed_update (now : string) (id : Z) (req : UpdateTodoRequest)
      (db : DB) :
  well_formed db -> update_admissible now id req db = true ->
  well_formed (update_store now id req db).
Proof.
  intros (Hd & Hb & Hc) Ha. split; [|split].
  - rewrite ids_update_store. exact Hd.
  - unfold update_store. cbn [tbl autoinc]. apply Forall_map.
    eapply Forall_impl; [|exact Hb]. intros r Hr.
    destruct (r_id r =? id); exact Hr.
  - unfold update_store, update_admissible in *. cbn [tbl].
    apply Forall_map. apply Forall_forall. intros r Hin.
    rewrite forallb_forall in Ha. specialize (Ha r Hin).
    rewrite Forall_forall in Hc. specialize (Hc r Hin).
    destruct (r_id r =? id); [exact Ha | exact Hc].
Qed.

Lemma well_formed_delete (id : Z) (db : DB) :
  well_formed db -> well_formed (delete_store id db).
Proof.
  intros (Hd & Hb & Hc). unfold delete_store.
  split; [|split]; cbn [tbl autoinc].
  - apply NoDup_ids_filter. exact Hd.
  - apply Forall_forall. intros r Hin. apply filter_In in Hin.
    rewrite Forall_forall in Hb. apply Hb. tauto.
  - apply Forall_forall. intros r Hin. apply filter_In in Hin.
    rewrite Forall_forall in Hc. apply Hc. tauto.
Qed.

Lemma well_formed_create (now : string) (req : CreateTodoRequest) (db : DB) :
  well_formed db -> create_ok now req db = true ->
  well_formed (create_store now req db).
Proof.
  intros (Hd & Hb & Hc) Hok. apply andb_prop in Hok. destruct Hok as [_ Hck].
  assert (Hlt : forall r, In r (tbl db) -> r_id r < next_id db).
  { intros r Hin. apply max_id_bound in Hin. unfold next_id. lia. }
  unfold create_store. split; [|split]; cbn [tbl autoinc].
  - rewrite map_app. cbn [map created_row r_id].
    apply NoDup_app; [exact Hd | repeat constructor; intros [] |].
    intros x Hx [E|[]]. apply in_map_iff in Hx.
    destruct Hx as (r & Hr & Hin). specialize (Hlt r Hin). lia.
  - apply Forall_app. split.
    + apply Forall_forall. intros r Hin. specialize (Hlt r Hin). lia.
    + repeat constructor. cbn [created_row r_id]. lia.
  - apply Forall_app. split; [exact Hc|]. repeat constructor. exact Hck.
Qed.

(** From a table that satisfies the schema's constraints (unique ids, no id
    beyond the AUTOINCREMENT counter, every row within the CHECK
    constraints), every operation of the repository, whatever its arguments
    and its outcome, leaves a table that satisfies them. *)
Theorem operations_keep_constraints
        (now : string) (id : Z) (req : UpdateTodoRequest)
        (creq : CreateTodoRequest) (status category : option string)
        (c : Conn) :
  well_formed (store c) ->
  well_formed (store (fst (CreateTodo now creq c)))
  /\ well_formed (store (fst (UpdateTodo now id req c)))
  /\ well_formed (store (fst (DeleteTodo now id c)))
  /\ well_formed (store (fst (GetTodo id c)))
  /\ well_formed (store (fst (ListTodos status category c))).
Proof.
  intro Hw. split; [|split; [|split; [|split]]].
  - rewrite (proj1 (CreateTodo_outcome now creq c)).
    destruct (create_ok now creq (store c)) eqn:Hok; [|exact Hw].
    exact (well_formed_create now creq Hw Hok).
  - rewrite UpdateTodo_store.
    destruct (no_fields req); [exact Hw|].
    destruct (update_admissible now id req (store c)) eqn:Ha; [|exact Hw].
    exact (well_formed_update now id req Hw Ha).
  - rewrite DeleteTodo_spec. exact (well_formed_delete id Hw).
  - rewrite GetTodo_spec. exact Hw.
  - rewrite ListTodos_spec. exact Hw.
Qed.

Lemma check_row_valid (r : Row) :
  check_row r = true ->
  ValidStatuses (r_status r) = true
  /\ ValidCategories (r_category r) = true
  /\ 0 <= r_progress r <= 100.
Proof.
  unfold check_row, ValidStatuses, ValidCategories, StatusPending,
    StatusInProgress, StatusDone, CategoryPersonal, CategoryWork,
    CategoryOther.
  intro H. apply andb_prop in H. destruct H as [H H4].
  apply andb_prop in H. destruct H as [H H3].
  apply andb_prop in H. destruct H as [H1 H2].
  rewrite H1, H2. repeat split; lia.
Qed.

Lemma strict_order (l : list Row) :
  StronglySorted id_le l -> NoDup (map r_id l) ->
  StronglySorted (fun a b : Todo => ID a < ID b) (map todo_of_row l).
Proof.
  induction 1 as [|x l Hs IH Hx]; cbn [map]; intro Hd; constructor.
  - apply IH. inversion Hd; assumption.
  - apply Forall_map. inversion Hd as [|? ? Hn _]; subst.
    rewrite Forall_forall in *. intros y Hy. specialize (Hx y Hy).
    unfold id_le in Hx. cbn [todo_of_row todo_of project ID q_id].
    assert (r_id x <> r_id y).
    { intro E. apply Hn. rewrite E. apply in_map. exact Hy. }
    lia.
Qed.

(** Over a table that satisfies the schema's constraints, every record a
    read or a listing returns has a status and a category among the
    enumerated ones and a progress from 0 to 100, and the ids of a listing
    increase strictly, so that no record is listed twice. *)
Theorem records_read_are_valid
        (id : Z) (status category : option string) (c : Conn) :
  well_formed (store c) ->
  (forall t, snd (GetTodo id c) = inr t ->
             ValidStatuses (Status t) = true
             /\ ValidCategories (Category t) = true
             /\ 0 <= ProgressPercent t <= 100)
  /\ Forall (fun t => ValidStatuses (Status t) = true
                      /\ ValidCategories (Category t) = true
                      /\ 0 <= ProgressPercent t <= 100)
            (listed (snd (ListTodos status category c)))
  /\ StronglySorted (fun a b : Todo => ID a < ID b)
                    (listed (snd (ListTodos status category c))).
Proof.
  intros (Hd & _ & Hc). rewrite Forall_forall in Hc. split; [|split].
  - intros t. rewrite GetTodo_spec. cbn [snd].
    destruct (lookup id (store c)) as [r|] eqn:Hl; [|discriminate].
    intro E. injection E as <-.
    apply check_row_valid, Hc. apply (lookup_in _ _ Hl).
  - rewrite ListTodos_spec. cbn [snd listed]. apply Forall_map.
    apply Forall_forall. intros r Hin.
    apply (Permutation_in _ (sort_by_id_perm _)) in Hin.
    apply filter_In in Hin.
    apply (check_row_valid r). apply Hc. tauto.
  - rewrite ListTodos_spec. cbn [snd listed].
    apply strict_order; [apply sort_by_id_sorted|].
    eapply Permutation_NoDup.
    + apply Permutation_map. symmetry. apply sort_by_id_perm.
    + apply NoDup_ids_filter. exact Hd.
Qed.

(** ** Ids are not handed out again *)

Lemma find_append (f : Row -> bool) (a b : list Row) :
  find f (a ++ b)
  = match find f a with Some r => Some r | None => find f b end.
Proof.
  induction a as [|x a IH]; cbn [app find]; [reflexivity|].
  destruct (f x); [reflexivity | exact IH].
Qed.

(** Over a table that satisfies the schema's constraints, once a record has
    been deleted a create that follows gets an id greater than the deleted
    one, and the deleted id stays absent. *)
Theorem deleted_id_is_not_reissued
        (now now' : string) (id : Z) (creq : CreateTodoRequest)
        (c c2 : Conn) (r : Row) (t : Todo) :
  well_formed (store c) ->
  lookup id (store c) = Some r ->
  CreateTodo now' creq (fst (DeleteTodo now id c)) = (c2, inr t) ->
  id < ID t
  /\ snd (GetTodo id c2) = inl ErrNotFound
  /\ snd (GetTodo (ID t) c2) = inr t.
Proof.
  intros (_ & Hb & _) Hl Hc.
  destruct (CreateTodo_ok now' creq _ Hc) as (Ht & Hs & _ & Hl2).
  cbv zeta in *. rewrite DeleteTodo_spec in *. cbn [fst store] in *.
  assert (Hid : id < next_id (delete_store id (store c))).
  { apply lookup_in in Hl. destruct Hl as [Hin <-].
    rewrite Forall_forall in Hb. specialize (Hb r Hin).
    unfold next_id, delete_store. cbn [autoinc]. lia. }
  subst t. cbn [todo_of_row todo_of project created_row ID q_id r_id] in *.
  split; [exact Hid|]. rewrite !GetTodo_spec. cbn [snd]. split.
  - rewrite Hs. unfold lookup. cbn [tbl]. rewrite find_append.
    fold (lookup id (delete_store id (store c))).
    rewrite lookup_delete_store, Z.eqb_refl. cbn [find created_row r_id].
    destruct (Z.eqb_spec (next_id (delete_store id (store c))) id);
      [lia | reflexivity].
  - rewrite Hl2. reflexivity.
Qed.

(** ** Listings and the other operations *)













(** ** A create that fails *)

(** A create that fails leaves the store as it was and reports the store's
    error wrapped as [insert todo]: the id space is exhausted or the row
    breaks a CHECK constraint.  It never reports [ErrNotFound], and it
    fails in these two cases only. *)
Theorem create_failure_leaves_store
        (now : string) (creq : CreateTodoRequest) (c : Conn) (e : error) :
  snd (CreateTodo now creq c) = inl e ->
  store (fst (CreateTodo now creq c)) = store c
  /\ (e = Wrap "insert todo" err_full
      \/ e = Wrap "insert todo" err_constraint)
  /\ errors_Is e ErrNotFound = false
  /\ create_ok now creq (store c) = false.
Proof.
  destruct (CreateTodo_outcome now creq c) as [Hs Hr].
  rewrite Hs, Hr. unfold create_ok.
  destruct (max_int64 <? next_id (store c)); cbn [negb andb].
  - intro E. injection E as <-. repeat split. left. reflexivity.
  - destruct (check_row _); [discriminate|].
    intro E. injection E as <-. repeat split. right. reflexivity.
Qed.

(** * Properties of the handlers *)

Lemma range_check (p : Z) :
  ((p <? 0) || (100 <? p)) = negb ((0 <=? p) && (p <=? 100)).
Proof.
  destruct (Z.ltb_spec p 0), (Z.ltb_spec 100 p), (Z.leb_spec 0 p),
    (Z.leb_spec p 100); try reflexivity; lia.
Qed.

Lemma check_row_of_valid (r : Row) :
  ValidStatuses (r_status r) = true ->
  ValidCategories (r_category r) = true ->
  0 <= r_progress r <= 100 ->
  check_row r = true.
Proof.
  unfold check_row, ValidStatuses, ValidCategories, StatusPending,
    StatusInProgress, StatusDone, CategoryPersonal, CategoryWork,
    CategoryOther.
  intros -> -> [H1 H2]. cbn [andb].
  destruct (Z.leb_spec 0 (r_progress r)), (Z.leb_spec (r_progress r) 100);
    try reflexivity; lia.
Qed.

Lemma accepted_row_passes (now : string) (id : Z) (body : CreateTodoRequest) :
  create_accepted body = true ->
  check_row (created_row now id body) = true.
Proof.
  unfold create_accepted. intro H.
  apply andb_prop in H. destruct H as [H Hp].
  apply andb_prop in H. destruct H as [H Hk].
  apply andb_prop in H. destruct H as [_ Hs].
  apply check_row_of_valid;
    cbn [created_row r_status r_category r_progress].
  - destruct (cr_Status body =? "")%string; [reflexivity | exact Hs].
  - destruct (cr_Category body =? "")%string; [reflexivity | exact Hk].
  - destruct (cr_ProgressPercent body) as [p|]; [|lia].
    apply andb_prop in Hp. destruct Hp as [H1 H2].
    apply Z.leb_le in H1, H2. lia.
Qed.

Lemma create_handler_accepted (now : string) (body : CreateTodoRequest)
      (c : Conn) :
  create_accepted body = true ->
  TodoHandler_CreateTodo now body c
  = (fst (CreateTodo now body c),
     match snd (CreateTodo now body c) with
     | inl _ => inl (Error500InternalServerError "failed to create todo")
     | inr todo => inr todo
     end).
Proof.
  unfold create_accepted, TodoHandler_CreateTodo. intro H.
  apply andb_prop in H. destruct H as [H Hp].
  apply andb_prop in H. destruct H as [H Hk].
  apply andb_prop in H. destruct H as [Ht Hs].
  destruct (cr_Title body =? "")%string; [discriminate|].
  apply orb_prop in Hs. apply orb_prop in Hk.
  assert (E1 : negb (cr_Status body =? "")%string
               && negb (ValidStatuses (cr_Status body)) = false).
  { destruct Hs as [->| ->]; [reflexivity | apply andb_false_r]. }
  assert (E2 : negb (cr_Category body =? "")%string
               && negb (ValidCategories (cr_Category body)) = false).
  { destruct Hk as [->| ->]; [reflexivity | apply andb_false_r]. }
  rewrite E1, E2.
  assert (E3 : match cr_ProgressPercent body with
               | Some p => (p <? 0) || (100 <? p)
               | None => false
               end = false).
  { destruct (cr_ProgressPercent body) as [p|]; [|reflexivity].
    rewrite range_check, Hp. reflexivity. }
  rewrite E3. destruct (CreateTodo now body c) as [c' [e|t]]; reflexivity.
Qed.

(** The create handler answers 400 exactly for a body with an empty title,
    a status or category that is neither empty nor enumerated, or a progress
    outside 0..100, and then it sends nothing to the store: the connection
    comes back as it was.  Any other body goes to the repository, whose
    record it returns and whose failure it answers with 500. *)
Theorem create_handler_refuses_before_store
        (now : string) (body : CreateTodoRequest) (c : Conn) :
  (create_accepted body = false ->
   exists msg, TodoHandler_CreateTodo now body c
               = (c, inl (Error400BadRequest msg)))
  /\ (cr_Title body = "" ->
      TodoHandler_CreateTodo now body c
      = (c, inl (Error400BadRequest "title is required")))
  /\ (create_accepted body = true ->
      fst (TodoHandler_CreateTodo now body c) = fst (CreateTodo now body c)
      /\ (forall t, snd (CreateTodo now body c) = inr t ->
                    snd (TodoHandler_CreateTodo now body c) = inr t)
      /\ (forall e, snd (CreateTodo now body c) = inl e ->
                    snd (TodoHandler_CreateTodo now body c)
                    = inl (Error500InternalServerError
                             "failed to create todo"))).
Proof.
  split; [|split].
  - unfold create_accepted, TodoHandler_CreateTodo. intro H.
    destruct (cr_Title body =? "")%string; [eauto|].
    destruct (negb (cr_Status body =? "")%string
              && negb (ValidStatuses (cr_Status body))) eqn:E1; [eauto|].
    destruct (negb (cr_Category body =? "")%string
              && negb (ValidCategories (cr_Category body))) eqn:E2; [eauto|].
    destruct (match cr_ProgressPercent body with
              | Some p => (p <? 0) || (100 <? p)
              | None => false
              end) eqn:E3; [eauto|].
    exfalso. cbn [negb andb] in H.
    assert (Hs : (cr_Status body =? "")%string
                 || ValidStatuses (cr_Status body) = true).
    { destruct (cr_Status body =? "")%string; [reflexivity|].
      destruct (ValidStatuses (cr_Status body)); [reflexivity|discriminate]. }
    assert (Hk : (cr_Category body =? "")%string
                 || ValidCategories (cr_Category body) = true).
    { destruct (cr_Category body =? "")%string; [reflexivity|].
      destruct (ValidCategories (cr_Category body));
        [reflexivity|discriminate]. }
    rewrite Hs, Hk in H. cbn [andb] in H.
    destruct (cr_ProgressPercent body) as [p|]; [|discriminate].
    rewrite range_check, H in E3. discriminate.
  - intro E. unfold TodoHandler_CreateTodo. rewrite E. reflexivity.
  - intro H. rewrite (create_handler_accepted now body c H). cbn [fst snd].
    split; [reflexivity|]. split; intros x ->; reflexivity.
Qed.

(** A body the create handler accepts never breaks a CHECK constraint of
    the store: while the store has an id left the handler returns the
    created record, whose title is the non-empty one supplied, whose status,
    category and progress are valid, and which a read by its id returns. *)
Theorem accepted_create_succeeds
        (now : string) (body : CreateTodoRequest) (c : Conn) :
  create_accepted body = true ->
  next_id (store c) <= max_int64 ->
  exists c' t,
    TodoHandler_CreateTodo now body c = (c', inr t)
    /\ Title t = cr_Title body /\ Title t <> ""
    /\ Description t = cr_Description body
    /\ ValidStatuses (Status t) = true
    /\ ValidCategories (Category t) = true
    /\ 0 <= ProgressPercent t <= 100
    /\ snd (TodoHandler_GetTodo (ID t) c') = inr t.
Proof.
  intros Hacc Hid.
  pose proof (accepted_row_passes now (next_id (store c)) body Hacc) as Hck.
  destruct (CreateTodo_succeeds now body c Hid Hck) as (c' & t & Hc).
  exists c', t. rewrite (create_handler_accepted now body c Hacc), Hc.
  cbn [fst snd]. split; [reflexivity|].
  destruct (CreateTodo_ok now body c Hc) as (Ht & _ & _ & Hl).
  cbv zeta in *.
  destruct (check_row_valid _ Hck) as (V1 & V2 & V3).
  subst t.
  cbn [todo_of_row todo_of project Title Description Status Category
       ProgressPercent ID q_id q_title q_description q_status q_category
       q_progress] in *.
  cbn [created_row r_id r_title r_description] in *.
  repeat split; try assumption; try lia.
  - unfold create_accepted in Hacc.
    destruct (String.eqb_spec (cr_Title body) ""); [discriminate|assumption].
  - unfold TodoHandler_GetTodo. rewrite GetTodo_spec, Hl. reflexivity.
Qed.

Lemma update_handler_accepted (now : string) (id : Z)
      (body : UpdateTodoRequest) (c : Conn) :
  update_accepted body = true ->
  TodoHandler_UpdateTodo now id body c
  = (fst (UpdateTodo now id body c),
     match snd (UpdateTodo now id body c) with
     | inl err =>
         if errors_Is err ErrNotFound
         then inl (Error404NotFound (not_found_detail id))
         else inl (Error500InternalServerError "failed to update todo")
     | inr todo => inr todo
     end).
Proof.
  unfold update_accepted, TodoHandler_UpdateTodo. intro H.
  apply andb_prop in H. destruct H as [H Hp].
  apply andb_prop in H. destruct H as [Hs Hk].
  assert (E1 : match up_Status body with
               | Some s => negb (ValidStatuses s) | None => false end
               = false).
  { destruct (up_Status body); [rewrite Hs|]; reflexivity. }
  assert (E2 : match up_Category body with
               | Some k => negb (ValidCategories k) | None => false end
               = false).
  { destruct (up_Category body); [rewrite Hk|]; reflexivity. }
  assert (E3 : match up_ProgressPercent body with
               | Some p => (p <? 0) || (100 <? p) | None => false end
               = false).
  { destruct (up_ProgressPercent body) as [p|]; [|reflexivity].
    rewrite range_check, Hp. reflexivity. }
  rewrite E1, E2, E3.
  destruct (UpdateTodo now id body c) as [c' [e|t]]; [|reflexivity].
  cbn [fst snd]. destruct (errors_Is e ErrNotFound); reflexivity.
Qed.


(** The update handler answers 400 exactly for a body whose status or
    category is supplied and not enumerated, or whose progress is supplied
    and outside 0..100, and then it sends nothing to the store: the
    connection comes back as it was.  A body without any field is
    accepted. *)
Theorem update_handler_refuses_before_store
        (now : string) (id : Z) (body : UpdateTodoRequest) (c : Conn) :
  (update_accepted body = false ->
   exists msg, TodoHandler_UpdateTodo now id body c
               = (c, inl (Error400BadRequest msg)))
  /\ (update_accepted body = true ->
      fst (TodoHandler_UpdateTodo now id body c)
      = fst (UpdateTodo now id body c)
      /\ forall e, snd (TodoHandler_UpdateTodo now id body c) = inl e ->
                   se_status e <> 400)
  /\ (no_fields body = true -> update_accepted body = true).
Proof.
  split; [|split].
  - unfold update_accepted, TodoHandler_UpdateTodo. intro H.
    destruct (match up_Status body with
              | Some s => negb (ValidStatuses s) | None => false end)
      eqn:E1; [eauto|].
    destruct (match up_Category body with
              | Some k => negb (ValidCategories k) | None => false end)
      eqn:E2; [eauto|].
    destruct (match up_ProgressPercent body with
              | Some p => (p <? 0) || (100 <? p) | None => false end)
      eqn:E3; [eauto|].
    exfalso.
    destruct (up_Status body) as [s|];
      [apply negb_false_iff in E1; rewrite E1 in H|];
      (destruct (up_Category body) as [k|];
       [apply negb_false_iff in E2; rewrite E2 in H|]);
      cbn [andb] in H;
      (destruct (up_ProgressPercent body) as [p|]; [|discriminate]);
      rewrite range_check, H in E3; discriminate.
  - intro H. rewrite (update_handler_accepted now id body c H).
    cbn [fst snd]. split; [reflexivity|]. intros e.
    destruct (snd (UpdateTodo now id body c)) as [err|t]; [|discriminate].
    destruct (errors_Is err ErrNotFound); intro E; injection E as <-;
      discriminate.
  - unfold no_fields, update_accepted.
    destruct (up_Title body), (up_Description body), (up_Status body),
      (up_Category body), (up_ProgressPercent body);
      try discriminate; reflexivity.
Qed.





End Repository.

(** * The read path when the store answers NULL

    The SELECT of the repository does not read the two timestamp columns as
    stored: it asks the store for [strftime('%Y-%m-%dT%H:%M:%SZ', col)],
    and the store answers NULL when the stored value is not a date.  The
    Go destinations are strings, to which [Scan] cannot convert a NULL.
    This module follows the read path with that answer in it; over values
    the store formats to text it is the read path above. *)

Module WithNull.

(** A row of the projection as the store hands it over: a timestamp column
    is the formatted text, or NULL. *)
Record RawRow : Type := mkRawRow {
  raw_id : Z;
  raw_title : string;
  raw_description : string;
  raw_status : string;
  raw_category : string;
  raw_progress : Z;
  raw_created : option string;
  raw_updated : option string
}.

(** The error of [Scan] on a NULL in a column whose destination is a Go
    string. *)
Definition err_scan_null (column : string) : error :=
  StoreError ("Scan error on column index " ++ column
              ++ ": converting NULL to string is unsupported").

(** [Scan(&t.ID, &t.Title, &t.Description, &statusStr, &categoryStr,
    &t.ProgressPercent, &createdAt, &updatedAt)]: the columns are converted
    in order, and the first NULL ends the scan with its error. *)
Definition Scan (raw : RawRow) : error + QRow :=
  match raw_created raw with
  | None => inl (err_scan_null "6")
  | Some createdAt =>
      match raw_updated raw with
      | None => inl (err_scan_null "7")
      | Some updatedAt =>
          inr (mkQRow (raw_id raw) (raw_title raw) (raw_description raw)
                      (raw_status raw) (raw_category raw) (raw_progress raw)
                      createdAt updatedAt)
      end
  end.

(** A digit, or the character itself, at each place of a pattern. *)
Definition is_digit (ch : ascii) : bool :=
  let n := nat_of_ascii ch in Nat.leb 48 n && Nat.leb n 57.

Fixpoint shaped (pattern v : string) : bool :=
  match pattern, v with
  | EmptyString, EmptyString => true
  | String p ps, String ch rest =>
      (if Ascii.eqb p "D" then is_digit ch else Ascii.eqb p ch)
      && shaped ps rest
  | _, _ => false
  end.

(** An instance of the store's formatter for examples: a stored
    [YYYY-MM-DD HH:MM:SS] and the Julian day 0 are formatted as by
    [demo_strftime]; any other value is not a date, and the answer is
    NULL. *)
Definition demo_strftime_null (v : string) : option string :=
  if (v =? "0")%string || shaped "DDDD-DD-DD DD:DD:DD" v
  then Some (demo_strftime v) else None.

(** A row whose creation time is not a date. *)
Definition garbage_row : Row :=
  mkRow 3 "Pay rent" "" "pending" "personal" 0 "garbage"
        "2026-02-12 15:04:05".

Definition garbage_conn : Conn :=
  mkConn (mkDB [demo_row; odd_row; garbage_row] 3) [].

Section ReadPath.

Variable Time : Type.
Variable zeroTime : Time.
Variable parseRFC3339 : string -> option Time.

(** What [strftime('%Y-%m-%dT%H:%M:%SZ', v)] answers for a stored value:
    its text, or [None] for NULL. *)
Variable strftime : string -> option string.

Definition project (r : Row) : RawRow :=
  mkRawRow (r_id r) (r_title r) (r_description r) (r_status r)
           (r_category r) (r_progress r) (strftime (r_created_at r))
           (strftime (r_updated_at r)).

(** [db.Query(query, args...)]. *)
Definition db_Query (q : string) (args : list sqlval) (c : Conn)
  : Conn * (error + list RawRow) :=
  let c' := mkConn (store c) (trace c ++ [CQuery q args])%list in
  match parse_stmt q with
  | Some (SSelect conds ordered) =>
      if Nat.eqb (List.length args) (List.length conds)
      then (c', inr (map project (select_rows conds ordered args (store c))))
      else (c', inl err_args)
  | _ => (c', inl err_syntax)
  end.

(** [*sql.Row]. *)
Definition SqlRow : Type := (error + list RawRow)%type.

Definition db_QueryRow (q : string) (args : list sqlval) (c : Conn)
  : Conn * SqlRow := db_Query q args c.

(** [row.Scan]: the deferred error, [sql.ErrNoRows] without a row, the scan
    of the first row otherwise. *)
Definition row_Scan (row : SqlRow) : error + QRow :=
  match row with
  | inl e => inl e
  | inr [] => inl sql_ErrNoRows
  | inr (raw :: _) => Scan raw
  end.

Definition scanTodo (row : SqlRow) : error + Todo Time :=
  match row_Scan row with
  | inl err =>
      if errors_Is err sql_ErrNoRows then inl ErrNotFound
      else inl (Wrap "scan todo" err)
  | inr q => inr (todo_of zeroTime parseRFC3339 q)
  end.

Definition GetTodo (id : Z) (c : Conn) : Conn * (error + Todo Time) :=
  let (c', row) := db_QueryRow get_query [VInt id] c in
  (c', scanTodo row).

(** The loop of [ListTodos] over the rows: a row that does not scan ends it
    with the error; a row that does is appended. *)
Fixpoint scan_rows (rows : list RawRow) (todos : slice (Todo Time))
  : error + slice (Todo Time) :=
  match rows with
  | [] => inr todos
  | raw :: rest =>
      match Scan raw with
      | inl err => inl (Wrap "scan todo" err)
      | inr q =>
          scan_rows rest (append todos (todo_of zeroTime parseRFC3339 q))
      end
  end.

Definition ListTodos (status category : option string) (c : Conn)
  : Conn * (error + slice (Todo Time)) :=
  let '(query, args) := ListTodos_query status category in
  let (c', res) := db_Query query args c in
  match res with
  | inl err => (c', inl (Wrap "query todos" err))
  | inr rows =>
      match scan_rows rows nil_slice with
      | inl err => (c', inl err)
      | inr todos =>
          let todos := if is_nil todos then mk_slice [] else todos in
          (c', inr todos)
      end
  end.

(** The record a row reads as when both timestamps are text. *)
Definition record_of (r : Row) (createdAt updatedAt : string) : Todo Time :=
  todo_of zeroTime parseRFC3339
          (mkQRow (r_id r) (r_title r) (r_description r) (r_status r)
                  (r_category r) (r_progress r) createdAt updatedAt).

(** The store formats both timestamps of a row to text. *)
Definition formats (r : Row) : Prop :=
  strftime (r_created_at r) <> None /\ strftime (r_updated_at r) <> None.

(** ** What a read returns *)

Lemma Scan_project (r : Row) :
  Scan (project r)
  = match strftime (r_created_at r), strftime (r_updated_at r) with
    | None, _ => inl (err_scan_null "6")
    | Some _, None => inl (err_scan_null "7")
    | Some createdAt, Some updatedAt =>
        inr (mkQRow (r_id r) (r_title r) (r_description r) (r_status r)
                    (r_category r) (r_progress r) createdAt updatedAt)
    end.
Proof.
  unfold Scan, project. cbn.
  destruct (strftime (r_created_at r)); [|reflexivity].
  destruct (strftime (r_updated_at r)); reflexivity.
Qed.

Lemma first_row_scanned (f : Row -> bool) (rows : list Row) :
  row_Scan (inr (map project (filter f rows)))
  = match find f rows with
    | Some r => Scan (project r)
    | None => inl sql_ErrNoRows
    end.
Proof.
  induction rows as [|r rows IH]; simpl; [reflexivity|].
  destruct (f r); simpl; [reflexivity | exact IH].
Qed.

Lemma GetTodo_answer (id : Z) (c : Conn) :
  GetTodo id c
  = (mkConn (store c) (trace c ++ [CQuery get_query [VInt id]])%list,
     match lookup id (store c) with
     | None => inl ErrNotFound
     | Some r =>
         match Scan (project r) with
         | inl err => inl (Wrap "scan todo" err)
         | inr q => inr (todo_of zeroTime parseRFC3339 q)
         end
     end).
Proof.
  unfold GetTodo, db_QueryRow, db_Query.
  rewrite parse_get_query.
  change (Nat.eqb (List.length [VInt id]) (List.length [Cid])) with true.
  cbv iota. f_equal.
  unfold scanTodo, select_rows, lookup.
  rewrite filter_matches_id, first_row_scanned.
  destruct (find _ _) as [r|]; [|reflexivity].
  rewrite Scan_project.
  destruct (strftime (r_created_at r)); [|reflexivity].
  destruct (strftime (r_updated_at r)); reflexivity.
Qed.

Lemma ListTodos_answer (status category : option string) (c : Conn) :
  snd (ListTodos status category c)
  = match scan_rows
            (map project
                 (sort_by_id (filter (satisfies status category)
                                     (tbl (store c)))))
            nil_slice with
    | inl err => inl err
    | inr todos => inr (if is_nil todos then mk_slice [] else todos)
    end
  /\ store (fst (ListTodos status category c)) = store c.
Proof.
  unfold ListTodos.
  destruct (ListTodos_query status category) as [q args] eqn:Hq.
  pose proof (parse_list_query status category) as Hp.
  pose proof (list_query_args status category) as Ha.
  rewrite Hq in Hp, Ha. cbn [fst snd] in *.
  unfold db_Query. rewrite Hp. subst args.
  rewrite !length_map, Nat.eqb_refl. unfold select_rows.
  rewrite (filter_ext _ _ (matches_satisfies status category)).
  destruct (scan_rows _ _); split; reflexivity.
Qed.

Lemma scan_rows_null (rows : list Row) (r : Row) (todos : slice (Todo Time)) :
  In r rows ->
  strftime (r_created_at r) = None \/ strftime (r_updated_at r) = None ->
  exists e, scan_rows (map project rows) todos = inl (Wrap "scan todo" e).
Proof.
  revert todos. induction rows as [|x rows IH]; intros todos Hin Hn;
    [contradiction|].
  cbn [map scan_rows].
  destruct (Scan (project x)) as [e|q] eqn:Es; [eauto|].
  destruct Hin as [->|Hin]; [|exact (IH _ Hin Hn)].
  exfalso. rewrite Scan_project in Es.
  destruct Hn as [Hn|Hn]; rewrite Hn in Es;
    [|destruct (strftime (r_created_at r))]; discriminate.
Qed.

Lemma scan_rows_text (rows : list Row) (acc : list (Todo Time)) :
  Forall formats rows ->
  exists l,
    scan_rows (map project rows) (mk_slice acc) = inr (mk_slice (acc ++ l))
    /\ forall r createdAt updatedAt,
         In r rows ->
         strftime (r_created_at r) = Some createdAt ->
         strftime (r_updated_at r) = Some updatedAt ->
         In (record_of r createdAt updatedAt) l.
Proof.
  intro Hf. revert acc. induction Hf as [|x rows [Hc Hu] _ IH]; intro acc.
  - exists []. rewrite app_nil_r. split; [reflexivity|]. intros ? ? ? [].
  - cbn [map scan_rows]. rewrite Scan_project.
    destruct (strftime (r_created_at x)) as [cr|] eqn:Ec; [|contradiction].
    destruct (strftime (r_updated_at x)) as [up|] eqn:Eu; [|contradiction].
    cbn [append]. fold (record_of x cr up).
    destruct (IH (acc ++ [record_of x cr up])%list) as (l & Hl & Hin).
    exists (record_of x cr up :: l). split.
    + rewrite Hl, <- app_assoc. reflexivity.
    + intros r createdAt updatedAt [<-|Hr] H1 H2.
      * left. congruence.
      * right. exact (Hin r createdAt updatedAt Hr H1 H2).
Qed.

(** Over values the store formats to text this read path is the one of the
    repository section: the same connection and the same answer. *)
Lemma GetTodo_over_text (strftime_iso : string -> string) (id : Z)
      (c : Conn) :
  (forall v, strftime v = Some (strftime_iso v)) ->
  GetTodo id c
  = (mkConn (store c) (trace c ++ [CQuery get_query [VInt id]])%list,
     match lookup id (store c) with
     | Some r => inr (todo_of_row zeroTime parseRFC3339 strftime_iso r)
     | None => inl ErrNotFound
     end).
Proof.
  intro Ht. rewrite GetTodo_answer. f_equal.
  destruct (lookup id (store c)) as [r|]; [|reflexivity].
  rewrite Scan_project, !Ht. reflexivity.
Qed.

(** C8 (amended).  For a stored row that a read by id finds:

    - when the store formats both timestamps to text, the read succeeds
      with the row's values, the zero time in place of each text that is
      not an RFC 3339 timestamp and the parsed time for one that is; and a
      listing whose filters the row passes, all of whose rows format to
      text, succeeds and contains that record;
    - when the store answers NULL for either timestamp (the stored value
      is not a date), the read fails with the scan error wrapped as
      [scan todo], not with [ErrNotFound], and so does every listing whose
      filters the row passes; the store is left as it was. *)
Theorem C8_text_reads_as_zero_and_null_fails
        (id : Z) (c : Conn) (r : Row) (status category : option string) :
  lookup id (store c) = Some r ->
  (forall createdAt updatedAt,
      strftime (r_created_at r) = Some createdAt ->
      strftime (r_updated_at r) = Some updatedAt ->
      exists t : Todo Time,
        snd (GetTodo id c) = inr t
        /\ ID t = r_id r /\ Title t = r_title r
        /\ Description t = r_description r /\ Status t = r_status r
        /\ Category t = r_category r /\ ProgressPercent t = r_progress r
        /\ (parseRFC3339 createdAt = None -> CreatedAt t = zeroTime)
        /\ (parseRFC3339 updatedAt = None -> UpdatedAt t = zeroTime)
        /\ (forall x, parseRFC3339 createdAt = Some x -> CreatedAt t = x)
        /\ (forall x, parseRFC3339 updatedAt = Some x -> UpdatedAt t = x)
        /\ (satisfies status category r = true ->
            (forall x, In x (tbl (store c)) ->
                       satisfies status category x = true -> formats x) ->
            exists l, snd (ListTodos status category c) = inr (mk_slice l)
                      /\ In t l))
  /\ (strftime (r_created_at r) = None \/ strftime (r_updated_at r) = None ->
      (exists e, snd (GetTodo id c) = inl (Wrap "scan todo" e))
      /\ snd (GetTodo id c) <> inl ErrNotFound
      /\ store (fst (GetTodo id c)) = store c
      /\ (satisfies status category r = true ->
          (exists e, snd (ListTodos status category c)
                     = inl (Wrap "scan todo" e))
          /\ store (fst (ListTodos status category c)) = store c)).
Proof.
  intro Hl. destruct (lookup_in _ _ Hl) as [Hin _].
  assert (Hsorted : forall x,
             In x (sort_by_id (filter (satisfies status category)
                                      (tbl (store c))))
             <-> In x (tbl (store c)) /\ satisfies status category x = true).
  { intro x. rewrite <- filter_In. split; apply Permutation_in;
      [|symmetry]; apply sort_by_id_perm. }
  split.
  - intros createdAt updatedAt Hc Hu. exists (record_of r createdAt updatedAt).
    rewrite GetTodo_answer, Hl. cbn [snd]. rewrite Scan_project, Hc, Hu.
    split; [reflexivity|].
    unfold record_of, todo_of, time_Parse.
    cbn [ID Title Description Status Category ProgressPercent CreatedAt
         UpdatedAt q_id q_title q_description q_status q_category q_progress
         q_created q_updated].
    do 6 (split; [reflexivity|]).
    split; [intros ->; reflexivity|]. split; [intros ->; reflexivity|].
    split; [intros x ->; reflexivity|]. split; [intros x ->; reflexivity|].
    intros Hs Hall.
    rewrite (proj1 (ListTodos_answer status category c)).
    pose proof (proj2 (Hsorted r) (conj Hin Hs)) as Hr.
    assert (Hf : Forall formats
                        (sort_by_id (filter (satisfies status category)
                                            (tbl (store c))))).
    { apply Forall_forall. intros y Hy. apply Hsorted in Hy.
      apply Hall; tauto. }
    destruct (sort_by_id (filter (satisfies status category)
                                 (tbl (store c)))) as [|x rows];
      [destruct Hr|].
    cbn [map scan_rows].
    inversion Hf as [|? ? [Hxc Hxu] Hrest]; subst.
    rewrite Scan_project.
    destruct (strftime (r_created_at x)) as [cr|] eqn:Ec; [|contradiction].
    destruct (strftime (r_updated_at x)) as [up|] eqn:Eu; [|contradiction].
    cbn [append]. fold (record_of x cr up).
    destruct (scan_rows_text [record_of x cr up] Hrest) as (l & Hsl & Hil).
    rewrite Hsl. cbn [is_nil app].
    eexists. split; [reflexivity|].
    destruct Hr as [->|Hr].
    + left. assert (cr = createdAt) by congruence.
      assert (up = updatedAt) by congruence. subst. reflexivity.
    + right. exact (Hil r createdAt updatedAt Hr Hc Hu).
  - intro Hn.
    assert (Hg : exists e, snd (GetTodo id c) = inl (Wrap "scan todo" e)).
    { rewrite GetTodo_answer, Hl. cbn [snd]. rewrite Scan_project.
      destruct (strftime (r_created_at r)) as [cr|]; [|eauto].
      destruct (strftime (r_updated_at r)) as [up|]; [|eauto].
      destruct Hn; discriminate. }
    split; [exact Hg|]. split; [|split].
    + destruct Hg as [e He]. rewrite He. discriminate.
    + rewrite GetTodo_answer. reflexivity.
    + intro Hs. destruct (ListTodos_answer status category c) as [Hres Hst].
      split; [|exact Hst]. rewrite Hres.
      destruct (scan_rows_null
                  (sort_by_id (filter (satisfies status category)
                                      (tbl (store c))))
                  r nil_slice) as [e He];
        [apply Hsorted; split; assumption | exact Hn |].
      rewrite He. eauto.
Qed.

End ReadPath.

(** The original C8 fails on a row whose creation time is not a date: the
    stored text is no RFC 3339 timestamp, the store answers NULL for it,
    and reading the row, by id or in a listing, fails with the scan
    error. *)
Lemma C8_null_timestamp_fails_the_read :
  lookup 3 (store garbage_conn) = Some garbage_row
  /\ demo_parse (r_created_at garbage_row) = None
  /\ snd (GetTodo demo_zero demo_parse demo_strftime_null 3 garbage_conn)
     = inl (Wrap "scan todo" (err_scan_null "6"))
  /\ snd (ListTodos demo_zero demo_parse demo_strftime_null None None
                    garbage_conn)
     = inl (Wrap "scan todo" (err_scan_null "6")).
Proof. repeat split; vm_compute; reflexivity. Qed.

Lemma C8_witness :
  lookup 2 (store garbage_conn) = Some odd_row
  /\ (exists t,
        snd (GetTodo demo_zero demo_parse demo_strftime_null 2 garbage_conn)
        = inr t
        /\ CreatedAt t = demo_zero
        /\ UpdatedAt t = "2026-02-12T15:04:05Z"
        /\ Title t = "Call home" /\ ProgressPercent t = 100)
  /\ exists e,
       snd (GetTodo demo_zero demo_parse demo_strftime_null 3 garbage_conn)
       = inl (Wrap "scan todo" e).
Proof.
  assert (H2 : lookup 2 (store garbage_conn) = Some odd_row)
    by (vm_compute; reflexivity).
  assert (H3 : lookup 3 (store garbage_conn) = Some garbage_row)
    by (vm_compute; reflexivity).
  split; [exact H2|]. split.
  - destruct (C8_text_reads_as_zero_and_null_fails
                demo_zero demo_parse demo_strftime_null 2 garbage_conn
                None None H2) as [Ht _].
    destruct (Ht "-4713-11-24T12:00:00Z" "2026-02-12T15:04:05Z")
      as (t & Hg & _ & Hti & _ & _ & _ & Hpr & Hcr & _ & _ & Hup & _);
      [vm_compute; reflexivity | vm_compute; reflexivity |].
    exists t. split; [exact Hg|].
    split; [apply Hcr; vm_compute; reflexivity|].
    split; [apply Hup; vm_compute; reflexivity|].
    split; [exact Hti | exact Hpr].
  - destruct (C8_text_reads_as_zero_and_null_fails
                demo_zero demo_parse demo_strftime_null 3 garbage_conn
                None None H3) as [_ Hn].
    destruct Hn as (Hg & _); [left; vm_compute; reflexivity|]. exact Hg.
Defined.

End WithNull.

(** ** Schema initialisation *)

Lemma finds_category_names (n : Z) (cols : list ColumnDef) :
  finds_category (table_info_from n cols) = has_name "category" cols.
Proof.
  revert n. induction cols as [|col cols IH]; intro n; [reflexivity|].
  simpl. rewrite IH. destruct (cd_name col =? "category")%string; reflexivity.
Qed.

Lemma has_name_app (name : string) (a b : list ColumnDef) :
  has_name name (a ++ b)%list = has_name name a || has_name name b.
Proof. apply existsb_app. Qed.

Lemma has_index_app (name : string) (a b : list Index) :
  has_index name (a ++ b)%list = has_index name a || has_index name b.
Proof. apply existsb_app. Qed.

Lemma addCategoryColumn_present (c : Catalog) (cols : list ColumnDef) :
  todos c = Some cols -> has_name "category" cols = true ->
  addCategoryColumn c = (c, None).
Proof.
  intros Ht Hn. unfold addCategoryColumn, table_info.
  rewrite Ht, finds_category_names, Hn. reflexivity.
Qed.

Lemma addCategoryColumn_absent (c : Catalog) (cols : list ColumnDef) :
  todos c = Some cols -> has_name "category" cols = false ->
  addCategoryColumn c
  = (mkCatalog (Some (cols ++ [category_column])%list)
               (if has_index "idx_todos_category" (indexes c)
                then indexes c else (indexes c ++ [category_index])%list),
     None).
Proof.
  intros Ht Hn. unfold addCategoryColumn, table_info.
  rewrite Ht, finds_category_names, Hn.
  unfold migration, exec_ddl. rewrite Ht.
  change (cd_name category_column) with "category". rewrite Hn.
  cbn [cd_notnull cd_default category_column todos indexes].
  change (ix_name category_index) with "idx_todos_category".
  destruct (has_index "idx_todos_category" (indexes c)); [reflexivity|].
  change (ix_column category_index) with "category".
  rewrite has_name_app. cbn. rewrite orb_true_r. reflexivity.
Qed.

Lemma Migrate_migrated (c : Catalog) :
  migrated c = true -> Migrate c = (c, None).
Proof.
  unfold migrated. destruct (todos c) as [cols|] eqn:Ht; [|discriminate].
  intro H. apply andb_prop in H. destruct H as [Hn Hi].
  unfold Migrate, schema, exec_script, exec_ddl. rewrite Ht.
  change (ix_name (mkIndex "idx_todos_status" "todos" "status"))
    with "idx_todos_status".
  rewrite Hi, (addCategoryColumn_present c Ht Hn). reflexivity.
Qed.

Lemma script_result (c c1 : Catalog) :
  exec_script schema c = (c1, None) ->
  exists cols, todos c1 = Some cols
               /\ has_index "idx_todos_status" (indexes c1) = true.
Proof.
  unfold schema, exec_script.
  destruct (exec_ddl (CreateTableIfNotExists _) c) as [e|cA] eqn:EA;
    [discriminate|].
  assert (HA : exists cols, todos cA = Some cols).
  { unfold exec_ddl in EA. destruct (todos c) as [cols|] eqn:Ht;
      injection EA as <-; [exists cols; exact Ht | eexists; reflexivity]. }
  destruct HA as [cols HA].
  unfold exec_ddl. cbn [ix_name ix_column].
  destruct (has_index "idx_todos_status" (indexes cA)) eqn:Hi.
  - intro H. injection H as <-. eauto.
  - rewrite HA. destruct (has_name "status" cols); [|discriminate].
    intro H. injection H as <-. cbn [todos indexes]. exists cols.
    split; [reflexivity|]. rewrite has_index_app. cbn. apply orb_true_r.
Qed.

Lemma Migrate_result (c c1 : Catalog) :
  Migrate c = (c1, None) -> migrated c1 = true.
Proof.
  unfold Migrate.
  destruct (exec_script schema c) as [cB [e|]] eqn:Es; [discriminate|].
  destruct (script_result c Es) as (cols & Ht & Hi).
  destruct (has_name "category" cols) eqn:Hn.
  - rewrite (addCategoryColumn_present cB Ht Hn). intro H.
    injection H as <-. unfold migrated. rewrite Ht, Hn, Hi. reflexivity.
  - rewrite (addCategoryColumn_absent cB Ht Hn). intro H.
    injection H as <-. unfold migrated. cbn [todos indexes].
    rewrite has_name_app. cbn [has_name existsb category_column cd_name].
    rewrite orb_true_r. cbn [andb].
    destruct (has_index "idx_todos_category" (indexes cB)); [exact Hi|].
    rewrite has_index_app, Hi. reflexivity.
Qed.

(** C7.  Schema initialisation is idempotent: when [Migrate] has succeeded,
    running it again on the resulting catalog succeeds and leaves the
    catalog identical.  It succeeds on an empty database file and on a
    database that predates the category column.  The category step reads
    the live column list: it changes nothing when a column named
    [category] is there; when none is, it appends the column with default
    ['personal'], NOT NULL and the check on the three categories, and the
    index on it exists afterwards (added by the step unless an index of
    that name was there already). *)
Theorem C7_migrate_idempotent :
  (forall c c1 : Catalog,
      Migrate c = (c1, None) -> Migrate c1 = (c1, None))
  /\ snd (Migrate empty_catalog) = None
  /\ snd (Migrate legacy_catalog) = None
  /\ Migrate legacy_catalog = Migrate empty_catalog
  /\ (forall (c : Catalog) (cols : list ColumnDef),
         todos c = Some cols -> has_name "category" cols = true ->
         addCategoryColumn c = (c, None))
  /\ (forall (c : Catalog) (cols : list ColumnDef),
         todos c = Some cols -> has_name "category" cols = false ->
         exists c',
           addCategoryColumn c = (c', None)
           /\ todos c' = Some (cols ++ [category_column])%list
           /\ has_index "idx_todos_category" (indexes c') = true
           /\ (has_index "idx_todos_category" (indexes c) = false ->
               indexes c' = (indexes c ++ [category_index])%list))
  /\ cd_default category_column = Some "'personal'"
  /\ cd_check category_column = CheckIn ["personal"; "work"; "other"]
  /\ ix_column category_index = "category".
Proof.
  split; [|split; [|split; [|split; [|split; [|split]]]]].
  - intros c c1 H. apply Migrate_migrated. exact (Migrate_result c H).
  - reflexivity.
  - reflexivity.
  - reflexivity.
  - exact addCategoryColumn_present.
  - intros c cols Ht Hn. eexists.
    split; [exact (addCategoryColumn_absent c Ht Hn)|].
    cbn [todos indexes]. split; [reflexivity|].
    destruct (has_index "idx_todos_category" (indexes c)) eqn:Hi.
    + split; [exact Hi | discriminate].
    + split; [|reflexivity]. rewrite has_index_app. cbn. apply orb_true_r.
  - repeat split.
Qed.

(** ** Schema initialisation only adds *)

Lemma keeps_refl (c : Catalog) : keeps c c.
Proof.
  split.
  - intros cols H. exists []. rewrite app_nil_r. exact H.
  - exists []. rewrite app_nil_r. reflexivity.
Qed.

Lemma keeps_trans (a b c : Catalog) : keeps a b -> keeps b c -> keeps a c.
Proof.
  intros [H1 [m1 I1]] [H2 [m2 I2]]. split.
  - intros cols Ha. destruct (H1 cols Ha) as [x Hb].
    destruct (H2 _ Hb) as [y Hc]. exists (x ++ y)%list.
    rewrite Hc, <- app_assoc. reflexivity.
  - exists (m1 ++ m2)%list. rewrite I2, I1, <- app_assoc. reflexivity.
Qed.

Lemma exec_ddl_keeps (d : ddl) (c c' : Catalog) :
  exec_ddl d c = inr c' -> keeps c c'.
Proof.
  destruct d as [cols|ix|col]; cbn [exec_ddl].
  - destruct (todos c) eqn:Ht; intro H; injection H as <-.
    + apply keeps_refl.
    + split; cbn [todos indexes].
      * intros x Hx. congruence.
      * exists []. rewrite app_nil_r. reflexivity.
  - destruct (has_index (ix_name ix) (indexes c)).
    + intro H. injection H as <-. apply keeps_refl.
    + destruct (todos c) as [cols|] eqn:Ht; [|discriminate].
      destruct (has_name (ix_column ix) cols); [|discriminate].
      intro H. injection H as <-. split; cbn [todos indexes].
      * intros x Hx. exists []. rewrite app_nil_r. congruence.
      * exists [ix]. reflexivity.
  - destruct (todos c) as [cols|] eqn:Ht; [|discriminate].
    destruct (has_name (cd_name col) cols); [discriminate|].
    destruct (cd_notnull col), (cd_default col); try discriminate;
      intro H; injection H as <-; (split; cbn [todos indexes];
      [ intros x Hx; assert (x = cols) by congruence; subst x;
        exists [col]; reflexivity
      | exists []; rewrite app_nil_r; reflexivity ]).
Qed.

Lemma exec_script_keeps (ds : list ddl) (c : Catalog) :
  keeps c (fst (exec_script ds c)).
Proof.
  revert c. induction ds as [|d ds IH]; intro c; cbn [exec_script].
  - apply keeps_refl.
  - destruct (exec_ddl d c) as [e|c'] eqn:E; [apply keeps_refl|].
    eapply keeps_trans; [exact (exec_ddl_keeps d c E) | apply IH].
Qed.

Lemma addCategoryColumn_keeps (c : Catalog) :
  keeps c (fst (addCategoryColumn c)).
Proof.
  unfold addCategoryColumn.
  destruct (finds_category (table_info c)); [apply keeps_refl|].
  destruct (exec_ddl migration c) as [e|c1] eqn:E1; [apply keeps_refl|].
  destruct (exec_ddl (CreateIndexIfNotExists category_index) c1)
    as [e|c2] eqn:E2; cbn [fst].
  - exact (exec_ddl_keeps _ _ E1).
  - eapply keeps_trans;
      [exact (exec_ddl_keeps _ _ E1) | exact (exec_ddl_keeps _ _ E2)].
Qed.

Lemma Migrate_keeps (c : Catalog) : keeps c (fst (Migrate c)).
Proof.
  unfold Migrate.
  pose proof (exec_script_keeps schema c) as H1.
  destruct (exec_script schema c) as [c1 [e|]]; [exact H1|].
  pose proof (addCategoryColumn_keeps c1) as H2.
  destruct (addCategoryColumn c1) as [c2 [e|]];
    exact (keeps_trans H1 H2).
Qed.

(** Schema initialisation only adds: whatever the catalog it starts from
    and whether it succeeds or fails part of the way, every column that
    [todos] had is still there, in place and as declared, with new columns
    after the old ones, and every index is still there. *)
Theorem migrate_only_adds (c : Catalog) : keeps c (fst (Migrate c)).
Proof. exact (Migrate_keeps c). Qed.

(** ** Opening the repository *)

(** [New] fails closed.  It hands out a repository only when the
    directory, the open and the journal mode went through and the catalog
    it leaves is migrated: [todos] exists with a [category] column and the
    index on [status] exists.  Opening again on the catalog it left gives
    the same catalog and a repository. *)
Theorem New_fails_closed
        (mkdir open wal : option error) (c c' : Catalog)
        (repo : Repository) :
  New mkdir open wal c = (c', inr repo) ->
  mkdir = None /\ open = None /\ wal = None
  /\ repo_catalog repo = c'
  /\ migrated c' = true
  /\ keeps c c'
  /\ New None None None c' = (c', inr repo).
Proof.
  unfold New.
  destruct mkdir; [discriminate|]. destruct open; [discriminate|].
  destruct wal; [discriminate|].
  pose proof (Migrate_keeps c) as Hk.
  destruct (Migrate c) as [c1 [e|]] eqn:Hm; [discriminate|].
  intro H. injection H as <- <-.
  pose proof (Migrate_result c Hm) as Hg.
  rewrite (Migrate_migrated c1 Hg). cbn [fst] in Hk.
  split; [reflexivity|]. split; [reflexivity|]. split; [reflexivity|].
  split; [reflexivity|]. split; [exact Hg|]. split; [exact Hk|reflexivity].
Qed.

(** ** The logger's fan-out *)

Section Fanout.

Context {H : Type} `{Handler H}.

Lemma handle_length (m : list H) (r : LogRecord) :
  List.length (fst (MultiHandler_Handle m r)) = List.length m.
Proof.
  induction m as [|h m IH]; [reflexivity|]. cbn [MultiHandler_Handle].
  destruct (Enabled h (rec_Level r)).
  - destruct (Handle h r) as [h' [e|]]; [reflexivity|].
    destruct (MultiHandler_Handle m r); cbn in *. congruence.
  - destruct (MultiHandler_Handle m r); cbn in *. congruence.
Qed.

(** [MultiHandler.Handle] gives the record to the handlers that are enabled
    for its level, in order, and to no other.  When none of them fails it
    reports no error and each enabled handler has handled the record.  When
    one fails, the error reported is that of the first handler that failed:
    the handlers before it have the record, the failing one has seen it,
    and the handlers after it are untouched, enabled or not.  The number of
    handlers stays the same, and when no handler is enabled nothing
    changes. *)
Theorem fanout_stops_at_first_error (m : list H) (r : LogRecord) :
  List.length (fst (MultiHandler_Handle m r)) = List.length m
  /\ match snd (MultiHandler_Handle m r) with
     | None =>
         fst (MultiHandler_Handle m r) = map (delivered r) m
         /\ Forall (accepts r) m
     | Some e =>
         exists pre h post,
           m = (pre ++ h :: post)%list
           /\ Forall (accepts r) pre
           /\ Enabled h (rec_Level r) = true
           /\ snd (Handle h r) = Some e
           /\ fst (MultiHandler_Handle m r)
              = (map (delivered r) pre ++ fst (Handle h r) :: post)%list
     end
  /\ (MultiHandler_Enabled m (rec_Level r) = false ->
      MultiHandler_Handle m r = (m, None)).
Proof.
  split; [apply handle_length|]. split.
  - induction m as [|h m IH]; cbn [MultiHandler_Handle].
    + cbn. split; [reflexivity | constructor].
    + unfold delivered, accepts in *.
      destruct (Enabled h (rec_Level r)) eqn:En.
      * destruct (Handle h r) as [h' [e|]] eqn:Eh.
        -- cbn [fst snd]. exists [], h, m. cbn [app map].
           rewrite Eh. repeat split; auto.
        -- destruct (MultiHandler_Handle m r) as [m' [e|]]; cbn [fst snd] in *.
           ++ destruct IH as (pre & x & post & -> & Hp & Hx & He & Hm).
              exists (h :: pre), x, post. cbn [app map].
              rewrite En, Eh, Hm. cbn [fst].
              repeat split; auto.
              constructor; [|exact Hp]. intros _. rewrite Eh. reflexivity.
           ++ destruct IH as [Hm Hf]. cbn [map]. rewrite En, Eh, Hm.
              split; [reflexivity|].
              constructor; [|exact Hf]. intros _. rewrite Eh. reflexivity.
      * destruct (MultiHandler_Handle m r) as [m' [e|]]; cbn [fst snd] in *.
        -- destruct IH as (pre & x & post & -> & Hp & Hx & He & Hm).
           exists (h :: pre), x, post. cbn [app map].
           rewrite En, Hm. repeat split; auto.
           constructor; [|exact Hp]. intro E. congruence.
        -- destruct IH as [Hm Hf]. cbn [map]. rewrite En, Hm.
           split; [reflexivity|].
           constructor; [|exact Hf]. intro E. congruence.
  - induction m as [|h m IH]; cbn [MultiHandler_Handle MultiHandler_Enabled];
      [reflexivity|].
    destruct (Enabled h (rec_Level r)); [discriminate|].
    intro E. rewrite (IH E). reflexivity.
Qed.

End Fanout.

(** ** The middleware *)

Lemma last_status_none (calls : list rw_call) :
  existsb is_write_header calls = false -> last_status calls = 200.
Proof.
  induction calls as [|k calls IH]; [reflexivity|].
  cbn [existsb last_status]. intro E. apply orb_false_elim in E.
  destruct E as [Ek Er]. destruct k; try discriminate; exact (IH Er).
Qed.

Lemma recorder_run (written : string -> Z) (calls : list rw_call)
      (rr : responseRecorder) :
  let rr' := fold_left (recorder_call written) calls rr in
  rr_passed rr' = (rr_passed rr ++ calls)%list
  /\ statusCode rr'
     = (if existsb is_write_header calls then last_status calls
        else statusCode rr)
  /\ bytesWritten rr' = bytesWritten rr + bytes_reported written calls.
Proof.
  revert rr. induction calls as [|k calls IH]; intro rr; cbv zeta.
  - cbn [fold_left existsb bytes_reported]. rewrite app_nil_r.
    split; [reflexivity|]. split; [reflexivity | lia].
  - cbn [fold_left]. destruct (IH (recorder_call written rr k))
      as (Hp & Hs & Hb). cbv zeta in *. rewrite Hp, Hs, Hb.
    destruct k as [key value|code|body];
      cbn [recorder_call recorder_SetHeader recorder_WriteHeader
           recorder_Write rr_passed statusCode bytesWritten existsb
           is_write_header orb last_status bytes_reported];
      rewrite <- app_assoc; cbn [app];
      (split; [reflexivity|]); (split; [|lia]);
      destruct (existsb is_write_header calls); reflexivity.
Qed.

Lemma last_status_after (a b : list rw_call) :
  last_status (a ++ b)
  = if existsb is_write_header b then last_status b else last_status a.
Proof.
  induction a as [|k a IH]; cbn [app].
  - destruct (existsb is_write_header b) eqn:E; [reflexivity|].
    apply last_status_none. exact E.
  - cbn [last_status]. rewrite existsb_app, IH.
    destruct k, (existsb is_write_header a), (existsb is_write_header b);
      reflexivity.
Qed.

Lemma bytes_reported_app (written : string -> Z) (a b : list rw_call) :
  bytes_reported written (a ++ b)
  = bytes_reported written a + bytes_reported written b.
Proof.
  induction a as [|k a IH]; cbn [app bytes_reported]; [reflexivity|].
  destruct k; rewrite IH; lia.
Qed.

Lemma RequestLogger_spec (written : string -> Z) (next : HttpHandler)
      (r : Request) :
  RequestLogger written next r
  = match sv_panic (next r) with
    | Some v => mkServed (sv_calls (next r)) (Some v) (sv_logs (next r))
    | None =>
        mkServed (sv_calls (next r)) None
                 (sv_logs (next r)
                  ++ [RequestCompleted
                        (level_for (last_status (sv_calls (next r))))
                        (Method r) (URL_Path r)
                        (last_status (sv_calls (next r)))
                        (bytes_reported written (sv_calls (next r)))])
    end.
Proof.
  unfold RequestLogger.
  destruct (recorder_run written (sv_calls (next r)) (mkRecorder [] 200 0))
    as (Hp & Hs & Hb). cbv zeta in *.
  cbn [rr_passed statusCode bytesWritten app] in *.
  assert (Hs' : statusCode (fold_left (recorder_call written)
                                      (sv_calls (next r))
                                      (mkRecorder [] 200 0))
                = last_status (sv_calls (next r))).
  { rewrite Hs.
    destruct (existsb is_write_header (sv_calls (next r))) eqn:E;
      [reflexivity|]. symmetry. apply last_status_none. exact E. }
  rewrite Hp, Hs', Hb. destruct (sv_panic (next r)); reflexivity.
Qed.

(** [RequestLogger] passes every call of the handler on to the writer
    unchanged and lets a panic through.  When the handler returns, the one
    entry it logs carries the code of the handler's last [WriteHeader], 200
    when there was none, and the sum of the byte counts the writer
    reported, at error level for 500 and above, warning for 400 to 499 and
    info otherwise.  When the handler panics it logs nothing. *)
Theorem request_logger_logs_last_status
        (written : string -> Z) (next : HttpHandler) (r : Request) :
  sv_calls (RequestLogger written next r) = sv_calls (next r)
  /\ sv_panic (RequestLogger written next r) = sv_panic (next r)
  /\ (sv_panic (next r) = None ->
      sv_logs (RequestLogger written next r)
      = (sv_logs (next r)
         ++ [RequestCompleted
               (level_for (last_status (sv_calls (next r))))
               (Method r) (URL_Path r)
               (last_status (sv_calls (next r)))
               (bytes_reported written (sv_calls (next r)))])%list)
  /\ (sv_panic (next r) <> None ->
      sv_logs (RequestLogger written next r) = sv_logs (next r))
  /\ (forall calls code,
         sv_calls (next r) = (calls ++ [CallWriteHeader code])%list ->
         last_status (sv_calls (next r)) = code).
Proof.
  rewrite RequestLogger_spec.
  destruct (sv_panic (next r)) as [v|]; cbn [sv_calls sv_panic sv_logs];
    (split; [reflexivity|]); (split; [reflexivity|]);
    (split; [intro; try reflexivity; discriminate|]);
    (split; [intro Hn; try reflexivity; contradiction|]).
  all: intros calls code ->; rewrite last_status_after; reflexivity.
Qed.

(** Behind [RequestLogger] and [Recovery], as the server stacks them, no
    panic of the handler gets out.  A handler that panics is answered with
    the JSON content type, a 500 and the error body after whatever it had
    already written, and the request is logged as a 500 at error level,
    after the entry for the panic, even when the handler had sent another
    status before it panicked. *)
Theorem panic_is_answered_and_logged_as_500
        (written : string -> Z) (next : HttpHandler) (r : Request) :
  sv_panic (RequestLogger written (Recovery next) r) = None
  /\ (forall v, sv_panic (next r) = Some v ->
        sv_calls (RequestLogger written (Recovery next) r)
        = (sv_calls (next r)
           ++ [CallSetHeader "Content-Type" "application/json";
               CallWriteHeader 500; CallWrite recovery_body])%list
        /\ sv_logs (RequestLogger written (Recovery next) r)
           = (sv_logs (next r)
              ++ [PanicRecovered v (Method r) (URL_Path r);
                  RequestCompleted LevelError (Method r) (URL_Path r) 500
                    (bytes_reported written (sv_calls (next r))
                     + written recovery_body)])%list)
  /\ (sv_panic (next r) = None ->
      RequestLogger written (Recovery next) r
      = RequestLogger written next r).
Proof.
  rewrite !RequestLogger_spec. unfold Recovery.
  destruct (sv_panic (next r)) as [v|] eqn:Hp;
    cbn [sv_calls sv_panic sv_logs].
  - split; [reflexivity|]. split; [|discriminate].
    intros v' E. injection E as <-. split; [reflexivity|].
    rewrite <- app_assoc. cbn [app]. do 2 f_equal.
    rewrite last_status_after, bytes_reported_app.
    cbn [existsb is_write_header orb last_status bytes_reported].
    rewrite Z.add_0_r. reflexivity.
  - rewrite Hp. split; [reflexivity|]. split; [discriminate|].
    intros _. reflexivity.
Qed.

(** An OPTIONS request never reaches the handler behind [CORS]: through the
    stack of [RequestLogger], [Recovery] and [CORS] it is answered with the
    three CORS headers and a 204, whatever the handler is, and logged once,
    as a 204 with no bytes at info level. *)
Theorem preflight_never_reaches_handler
        (written : string -> Z) (next : HttpHandler) (r : Request) :
  Method r = "OPTIONS" ->
  RequestLogger written (Recovery (CORS next)) r
  = mkServed (cors_headers ++ [CallWriteHeader 204])%list None
             [RequestCompleted LevelInfo "OPTIONS" (URL_Path r) 204 0].
Proof.
  intro Hm. rewrite RequestLogger_spec. unfold Recovery, CORS.
  rewrite Hm. cbn. reflexivity.
Qed.

(** ** The properties at concrete inputs *)

Lemma C1_witness :
  exists c' t,
    UpdateTodo demo_zero demo_parse demo_strftime demo_now 1
            (mkUpdate None (Some "") None None (Some 50)) demo_conn
    = (c', inr t)
    /\ Title t = "Buy milk" /\ Description t = "" /\ Status t = "pending"
    /\ Category t = "personal" /\ ProgressPercent t = 50 /\ ID t = 1.
Proof.
  destruct (UpdateTodo demo_zero demo_parse demo_strftime demo_now 1
                    (mkUpdate None (Some "") None None (Some 50)) demo_conn)
    as [c' [e|t]] eqn:Hup; [vm_compute in Hup; discriminate|].
  exists c', t. split; [reflexivity|].
  assert (Hold : snd (GetTodo demo_zero demo_parse demo_strftime 1 demo_conn)
                 = inr (todo_of_row demo_zero demo_parse demo_strftime
                       demo_row))
    by (vm_compute; reflexivity).
  destruct (C1_update_writes_only_present_fields
              demo_zero demo_parse demo_strftime _ _ _ _ Hold Hup)
    as (H1 & H2 & H3 & H4 & H5 & H6 & _).
  repeat split; assumption.
Defined.



Lemma C4_witness :
  exists c' t,
    CreateTodo demo_zero demo_parse demo_strftime demo_now
            (mkCreate "Water plants" "" "" "" None) demo_conn
    = (c', inr t)
    /\ Status t = "pending" /\ Category t = "personal"
    /\ ProgressPercent t = 0 /\ CreatedAt t = UpdatedAt t
    /\ snd (GetTodo demo_zero demo_parse demo_strftime (ID t) c') = inr t.
Proof.
  destruct (CreateTodo demo_zero demo_parse demo_strftime demo_now
                    (mkCreate "Water plants" "" "" "" None) demo_conn)
    as [c' [e|t]] eqn:Hc; [vm_compute in Hc; discriminate|].
  exists c', t. split; [reflexivity|].
  destruct (C4_create_defaults_and_reread
              demo_zero demo_parse demo_strftime _ _ _ Hc)
    as (H1 & H2 & H3 & H4 & _ & _ & _ & H8).
  repeat split; auto.
Defined.


Lemma C7_witness :
  Migrate (fst (Migrate empty_catalog)) = (fst (Migrate empty_catalog), None)
  /\ migrated (fst (Migrate empty_catalog)) = true.
Proof.
  split; [|vm_compute; reflexivity].
  apply (proj1 C7_migrate_idempotent empty_catalog). reflexivity.
Defined.


Lemma C9_witness :
  exists c' t,
    CreateTodo demo_zero demo_parse demo_strftime demo_now
            (mkCreate "Water plants" "" "" "" None) demo_conn
    = (c', inr t)
    /\ Status t <> "" /\ Category t <> "".
Proof.
  destruct (CreateTodo demo_zero demo_parse demo_strftime demo_now
                    (mkCreate "Water plants" "" "" "" None) demo_conn)
    as [c' [e|t]] eqn:Hc; [vm_compute in Hc; discriminate|].
  exists c', t. split; [reflexivity|].
  destruct (proj2 (C9_create_empty_enum_means_default
                     demo_zero demo_parse demo_strftime) _ _ _ _ _ Hc)
    as (H1 & H2 & _).
  split; assumption.
Defined.

Lemma C10_witness :
  snd (UpdateTodo demo_zero demo_parse demo_strftime demo_now 999999
               (mkUpdate None None None None None) demo_conn)
  = inl ErrNotFound
  /\ issued demo_conn
            (fst (UpdateTodo demo_zero demo_parse demo_strftime demo_now 999999
                          (mkUpdate None None None None None) demo_conn))
     = [CQuery (get_query) [VInt 999999]].
Proof.
  assert (Hl : lookup 999999 (store demo_conn) = None)
    by (vm_compute; reflexivity).
  destruct (C10_empty_update_not_found_by_reread
              demo_zero demo_parse demo_strftime demo_now
              999999 (mkUpdate None None None None None) demo_conn
              eq_refl Hl) as (H1 & H2 & _).
  split; assumption.
Defined.

(** ** The further properties at concrete inputs *)

Lemma demo_well_formed : well_formed (store demo_conn).
Proof.
  split; [|split]; cbn.
  - repeat constructor; cbn; intuition discriminate.
  - repeat constructor; cbn; discriminate.
  - repeat constructor.
Qed.

Lemma reads_of_other_records_unchanged_witness :
  snd (GetTodo demo_zero demo_parse demo_strftime 2
         (fst (UpdateTodo demo_zero demo_parse demo_strftime demo_now 1
                 (mkUpdate (Some "Buy oat milk") None None None None)
                 demo_conn)))
  = snd (GetTodo demo_zero demo_parse demo_strftime 2 demo_conn)
  /\ snd (GetTodo demo_zero demo_parse demo_strftime 2
            (fst (DeleteTodo demo_now 1 demo_conn)))
     = snd (GetTodo demo_zero demo_parse demo_strftime 2 demo_conn).
Proof.
  assert (Hne : 2 <> 1) by discriminate.
  destruct (reads_of_other_records_unchanged
              demo_zero demo_parse demo_strftime demo_now
              (mkUpdate (Some "Buy oat milk") None None None None)
              (mkCreate "Water plants" "" "" "" None) demo_conn Hne)
    as (H1 & H2 & _).
  split; assumption.
Defined.

Lemma operations_keep_constraints_witness :
  well_formed
    (store (fst (CreateTodo demo_zero demo_parse demo_strftime demo_now
                   (mkCreate "Water plants" "" "" "work" (Some 10))
                   demo_conn)))
  /\ well_formed
       (store (fst (UpdateTodo demo_zero demo_parse demo_strftime demo_now 1
                      (mkUpdate None None (Some "done") None (Some 100))
                      demo_conn)))
  /\ well_formed (store (fst (DeleteTodo demo_now 2 demo_conn))).
Proof.
  destruct (operations_keep_constraints
              demo_zero demo_parse demo_strftime demo_now 1
              (mkUpdate None None (Some "done") None (Some 100))
              (mkCreate "Water plants" "" "" "work" (Some 10))
              None None demo_conn demo_well_formed)
    as (H1 & H2 & _).
  destruct (operations_keep_constraints
              demo_zero demo_parse demo_strftime demo_now 2
              (mkUpdate None None None None None)
              (mkCreate "Water plants" "" "" "work" (Some 10))
              None None demo_conn demo_well_formed)
    as (_ & _ & H3 & _).
  split; [exact H1 | split; [exact H2 | exact H3]].
Defined.

Lemma records_read_are_valid_witness :
  Forall (fun t : Todo string =>
            ValidStatuses (Status t) = true
            /\ ValidCategories (Category t) = true
            /\ 0 <= ProgressPercent t <= 100)
         (listed (snd (ListTodos demo_zero demo_parse demo_strftime
                         None None demo_conn)))
  /\ List.length (listed (snd (ListTodos demo_zero demo_parse demo_strftime
                                 None None demo_conn))) = 2%nat.
Proof.
  split; [|vm_compute; reflexivity].
  exact (proj1 (proj2 (records_read_are_valid
                         demo_zero demo_parse demo_strftime 1 None None
                         demo_conn demo_well_formed))).
Defined.

Lemma deleted_id_is_not_reissued_witness :
  exists c2 t,
    CreateTodo demo_zero demo_parse demo_strftime demo_now
               (mkCreate "Water plants" "" "" "" None)
               (fst (DeleteTodo demo_now 2 demo_conn))
    = (c2, inr t)
    /\ 2 < ID t
    /\ snd (GetTodo demo_zero demo_parse demo_strftime 2 c2)
       = inl ErrNotFound.
Proof.
  destruct (CreateTodo demo_zero demo_parse demo_strftime demo_now
              (mkCreate "Water plants" "" "" "" None)
              (fst (DeleteTodo demo_now 2 demo_conn)))
    as [c2 [e|t]] eqn:Hc; [vm_compute in Hc; discriminate|].
  exists c2, t. split; [reflexivity|].
  assert (Hl : lookup 2 (store demo_conn) = Some odd_row)
    by (vm_compute; reflexivity).
  destruct (deleted_id_is_not_reissued
              demo_zero demo_parse demo_strftime demo_now demo_now 2
              (mkCreate "Water plants" "" "" "" None) demo_conn
              demo_well_formed Hl Hc) as (H1 & H2 & _).
  split; assumption.
Defined.


Lemma create_failure_leaves_store_witness :
  snd (CreateTodo demo_zero demo_parse demo_strftime demo_now
         (mkCreate "Water plants" "" "urgent" "" None) demo_conn)
  = inl (Wrap "insert todo" err_constraint)
  /\ store (fst (CreateTodo demo_zero demo_parse demo_strftime demo_now
                   (mkCreate "Water plants" "" "urgent" "" None) demo_conn))
     = store demo_conn.
Proof.
  assert (He : snd (CreateTodo demo_zero demo_parse demo_strftime demo_now
                      (mkCreate "Water plants" "" "urgent" "" None)
                      demo_conn)
               = inl (Wrap "insert todo" err_constraint))
    by (vm_compute; reflexivity).
  split; [exact He|].
  exact (proj1 (create_failure_leaves_store
                  demo_zero demo_parse demo_strftime demo_now
                  (mkCreate "Water plants" "" "urgent" "" None) demo_conn
                  He)).
Defined.

Lemma accepted_create_succeeds_witness :
  exists c' t,
    TodoHandler_CreateTodo demo_zero demo_parse demo_strftime demo_now
      (mkCreate "Water plants" "weekly" "" "other" (Some 100)) demo_conn
    = (c', inr t)
    /\ Title t = "Water plants" /\ ValidStatuses (Status t) = true.
Proof.
  assert (Hid : next_id (store demo_conn) <= max_int64)
    by (vm_compute; discriminate).
  destruct (accepted_create_succeeds
              demo_zero demo_parse demo_strftime demo_now
              (mkCreate "Water plants" "weekly" "" "other" (Some 100))
              demo_conn eq_refl Hid)
    as (c' & t & H & H1 & _ & _ & H4 & _).
  exists c', t. repeat split; assumption.
Defined.



Lemma New_fails_closed_witness :
  exists c' repo,
    New None None None empty_catalog = (c', inr repo)
    /\ migrated c' = true
    /\ New None None None c' = (c', inr repo).
Proof.
  destruct (New None None None empty_catalog) as [c' [e|repo]] eqn:Hn;
    [vm_compute in Hn; discriminate|].
  exists c', repo. split; [reflexivity|].
  destruct (New_fails_closed None None None empty_catalog Hn)
    as (_ & _ & _ & _ & H5 & _ & H7).
  split; assumption.
Defined.

Lemma preflight_never_reaches_handler_witness :
  sv_calls
    (RequestLogger (fun b => Z.of_nat (String.length b))
       (Recovery (CORS (fun _ => mkServed [CallWriteHeader 200]
                                          (Some "boom") [])))
       (mkRequest "OPTIONS" "/api/v1/todos"))
  = (cors_headers ++ [CallWriteHeader 204])%list.
Proof.
  rewrite (preflight_never_reaches_handler
             (fun b => Z.of_nat (String.length b))
             (fun _ => mkServed [CallWriteHeader 200] (Some "boom") [])
             (mkRequest "OPTIONS" "/api/v1/todos") eq_refl).
  reflexivity.
Defined.
